(** * Eco-routing: a shallow embedding of [main.py] and its properties

    The program is the Python code that [main.py] carries between its code
    fences. It has three components chained by one driver:
    - [fetch_real_time_traffic_data] (the Traffic Source),
    - [calculate_fuel_efficiency] (the Consumption Estimator),
    - [find_most_efficient_route] (the Route Selector),
    - [main] (the Driver).

    Python numbers are IEEE 754 binary64 values; they are modelled by
    [SpecFloat.spec_float] at precision 53 and maximal exponent 1024, with the
    operations of the standard specification ([SFmul], [SFdiv], [SFcompare]).
    The integers of the mock data ([10], [12], [8]) and the divisor [100] are
    taken at their binary64 value: on integers below [2^53] Python's true
    division and its mixed arithmetic give the same results as the float
    operations. Exceptions and standard output are threaded through a small
    monad; the two random draws of the Traffic Source are arguments.

    The file has six parts: the program, the vocabulary of the properties,
    the lemmas, the properties themselves, further properties of the
    components, and the accuracy of the estimator. *)

From Stdlib Require Import ZArith Bool List String Ascii Lia.
From Stdlib Require Import SpecFloat.
From Stdlib Require DecimalString.
From Stdlib Require QArith Qabs Qpower Lqa.
Import ListNotations.

Local Open Scope Z_scope.

(** * Part I: the program *)

(** ** Python floats *)

Module Float.

Definition prec : Z := 53.
Definition emax : Z := 1024.

Definition float : Type := spec_float.

Definition mul : float -> float -> float := SFmul prec emax.
Definition div : float -> float -> float := SFdiv prec emax.

Definition add : float -> float -> float := SFadd prec emax.
Definition sub : float -> float -> float := SFsub prec emax.

(** Python's [<], [<=], [>=] and [==] on floats; every comparison with a
    NaN is false. *)
Definition ltb (x y : float) : bool := SFltb x y.
Definition leb (x y : float) : bool := SFleb x y.
Definition geb (x y : float) : bool := SFleb y x.
Definition eqb (x y : float) : bool := SFeqb x y.

(** [float('inf')] *)
Definition inf : float := S754_infinity false.
Definition nan : float := S754_nan.
Definition zero : float := S754_zero false.

(** An integer used where a float is expected ([10], [100]): the nearest
    binary64 value, exact for integers below [2^53] in magnitude. *)
Definition of_Z (n : Z) : float := binary_normalize prec emax n 0 false.

(** A decimal literal [n / 10^k] such as [1.2] or [0.15]: the binary64
    value nearest to the rational, as the Python parser produces it. *)
Definition lit (n : Z) (k : nat) : float := div (of_Z n) (of_Z (10 ^ Z.of_nat k)).

Definition is_nan (x : float) : bool :=
  match x with S754_nan => true | _ => false end.

Definition is_finite (x : float) : bool :=
  match x with S754_zero _ | S754_finite _ _ _ => true | _ => false end.

(** Well-formed binary64 values: canonical mantissa, exponent in range. *)
Definition valid (x : float) : bool := valid_binary prec emax x.

End Float.

(** ** Exceptions and standard output *)

Inductive exn : Type :=
| ConnectionError (msg : string)
| ValueError (msg : string)
| TypeError (msg : string).

(** [str(e)] *)
Definition exn_str (e : exn) : string :=
  match e with
  | ConnectionError msg | ValueError msg | TypeError msg => msg
  end.

Inductive outcome (A : Type) : Type :=
| Returned (a : A)
| Raised (e : exn).
Arguments Returned {A} a.
Arguments Raised {A} e.

(** Lines written by [print], oldest first. *)
Definition stdout : Type := list string.

Definition py (A : Type) : Type := stdout -> outcome A * stdout.

Definition ret {A} (a : A) : py A := fun out => (Returned a, out).

Definition bind {A B} (c : py A) (k : A -> py B) : py B :=
  fun out =>
    match c out with
    | (Returned a, out') => k a out'
    | (Raised e, out') => (Raised e, out')
    end.

Definition raise {A} (e : exn) : py A := fun out => (Raised e, out).

Definition print (line : string) : py unit :=
  fun out => (Returned tt, out ++ [line]).

(** [try: body / except <catches> as e: handler e]; an exception outside
    [catches] keeps propagating. *)
Definition try_except {A} (body : py A) (catches : exn -> bool)
                      (handler : exn -> py A) : py A :=
  fun out =>
    match body out with
    | (Returned a, out') => (Returned a, out')
    | (Raised e, out') =>
        if catches e then handler e out' else (Raised e, out')
    end.

Declare Scope py_scope.
Delimit Scope py_scope with py.
Notation "x <- c ;; k" := (bind c (fun x => k))
  (at level 61, c at next level, right associativity) : py_scope.
Notation "c ;; k" := (bind c (fun _ => k))
  (at level 61, right associativity) : py_scope.
Local Open Scope py_scope.

(** ** Data model *)

(** The value stored for one route: [{"distance_km": d, "traffic_condition": t}]. *)
Record route_data : Type := mk_route_data {
  distance_km : Float.float;
  traffic_condition : Float.float
}.

(** A traffic snapshot is a dict from route identifier to [route_data];
    [dict.items()] iterates in insertion order, which the list keeps. *)
Definition traffic_snapshot : Type := list (string * route_data).

Definition MOCK_TRAFFIC_DATA : traffic_snapshot :=
  [ ("route_1"%string, mk_route_data (Float.of_Z 10) (Float.lit 12 1));
    ("route_2"%string, mk_route_data (Float.of_Z 12) (Float.lit 10 1));
    ("route_3"%string, mk_route_data (Float.of_Z 8) (Float.lit 15 1)) ].

(** ** Traffic Source *)

Definition timeout_threshold : Float.float := Float.lit 15 2.

Definition is_ConnectionError_or_ValueError (e : exn) : bool :=
  match e with
  | ConnectionError _ | ValueError _ => true
  | _ => false
  end.

Definition is_ValueError (e : exn) : bool :=
  match e with
  | ValueError _ => true
  | _ => false
  end.

(** The body of the [try] block. The two random draws are the arguments:
    [network_delay] is the value of [random.uniform(0, 0.2)] and [choice]
    the value of [random.choice([True, False])]. *)
Definition fetch_body (network_delay : Float.float) (choice : bool)
  : py (option traffic_snapshot) :=
  if Float.geb network_delay timeout_threshold
  then raise (ConnectionError "Network timeout.")
  else if choice
       then ret (Some MOCK_TRAFFIC_DATA)
       else raise (ValueError "Failed to fetch traffic data.").

Definition fetch_real_time_traffic_data (network_delay : Float.float) (choice : bool)
  : py (option traffic_snapshot) :=
  try_except (fetch_body network_delay choice)
    is_ConnectionError_or_ValueError
    (fun e =>
       print ("Error fetching traffic data: " ++ exn_str e) ;;
       ret None).

(** ** Consumption Estimator *)

Definition calculate_fuel_efficiency (distance_km traffic_condition : Float.float) : Float.float :=
  let base_fuel_efficiency := Float.of_Z 7 in
  let fuel_consumption :=
    Float.mul (Float.mul (Float.div distance_km (Float.of_Z 100))
                         base_fuel_efficiency)
              traffic_condition in
  fuel_consumption.

(** ** Route Selector *)

(** The loop state: [(best_route, min_fuel_consumption)]. *)
Definition selection : Type := option string * Float.float.

(** One iteration of [for route, data in traffic_data.items()]. *)
Definition select_step (st : selection) (item : string * route_data) : selection :=
  let '(best_route, min_fuel_consumption) := st in
  let '(route, data) := item in
  let fuel_consumption :=
    calculate_fuel_efficiency (distance_km data) (traffic_condition data) in
  if Float.ltb fuel_consumption min_fuel_consumption
  then (Some route, fuel_consumption)
  else (best_route, min_fuel_consumption).

Definition select_loop (items : traffic_snapshot) (st : selection) : selection :=
  fold_left select_step items st.

(** [not traffic_data]: true for [None] and for the empty dict. *)
Definition falsy_snapshot (traffic_data : option traffic_snapshot) : bool :=
  match traffic_data with
  | None | Some [] => true
  | Some (_ :: _) => false
  end.

Definition items (traffic_data : option traffic_snapshot) : traffic_snapshot :=
  match traffic_data with
  | Some s => s
  | None => []
  end.

Definition find_body (traffic_data : option traffic_snapshot)
  : py (option string * option Float.float) :=
  if falsy_snapshot traffic_data
  then raise (ValueError "Traffic data is not available.")
  else
    let '(best_route, min_fuel_consumption) :=
      select_loop (items traffic_data) (None, Float.inf) in
    ret (best_route, Some min_fuel_consumption).

Definition find_most_efficient_route (traffic_data : option traffic_snapshot)
  : py (option string * option Float.float) :=
  try_except (find_body traffic_data)
    is_ValueError
    (fun e =>
       print ("Error in finding route: " ++ exn_str e) ;;
       ret (None, None)).

(** ** Driver *)

(** Decimal digits of a natural number, most significant first. *)
Definition decimal (n : Z) : string :=
  DecimalString.NilZero.string_of_uint (N.to_uint (Z.to_N n)).

Definition digit (n : Z) : ascii := ascii_of_nat (48 + Z.to_nat n).

(** [m * 2^e * 100] rounded to the nearest integer, halves to even: the
    correctly rounded number of hundredths that [%.2f] prints. *)
Definition hundredths (m : positive) (e : Z) : Z :=
  match e with
  | Zneg p =>
      let num := Zpos m * 100 in
      let den := 2 ^ Zpos p in
      let q := num / den in
      let r := num mod den in
      match 2 * r ?= den with
      | Lt => q
      | Gt => q + 1
      | Eq => if Z.even q then q else q + 1
      end
  | _ => Zpos m * 2 ^ e * 100
  end.

Definition sign_str (s : bool) : string := if s then "-" else "".

(** [format(x, '.2f')] *)
Definition format_2f (x : Float.float) : string :=
  match x with
  | S754_nan => "nan"
  | S754_infinity s => sign_str s ++ "inf"
  | S754_zero s => sign_str s ++ "0.00"
  | S754_finite s m e =>
      let n := hundredths m e in
      sign_str s ++ decimal (n / 100) ++ "."
        ++ String (digit (n / 10 mod 10)) (String (digit (n mod 10)) "")
  end.

(** [if best_route:] is false for [None] and for the empty string. *)
Definition truthy (best_route : option string) : bool :=
  match best_route with
  | None | Some EmptyString => false
  | Some _ => true
  end.

Definition str_of (s : option string) : string :=
  match s with
  | Some s => s
  | None => "None"
  end.

Definition success_line (best_route : string) (rendered : string) : string :=
  "The most fuel-efficient route is " ++ best_route
    ++ " with a fuel consumption of " ++ rendered ++ " liters.".

Definition failure_line : string :=
  "Could not determine the most efficient route due to errors.".

Definition main (network_delay : Float.float) (choice : bool) : py unit :=
  print "Fetching real-time traffic data..." ;;
  traffic_data <- fetch_real_time_traffic_data network_delay choice ;;
  print "Calculating the most efficient route..." ;;
  result <- find_most_efficient_route traffic_data ;;
  let '(best_route, fuel_consumption) := result in
  if truthy best_route
  then
    match fuel_consumption with
    | Some c => print (success_line (str_of best_route) (format_2f c))
    | None => raise (TypeError "unsupported format string passed to NoneType.__format__")
    end
  else print failure_line.

(** The process: [main()] run on an empty output; an uncaught exception
    ends the interpreter with status 1, a normal return with status 0. *)
Definition exit_status {A} (r : outcome A) : Z :=
  match r with
  | Returned _ => 0
  | Raised _ => 1
  end.

Definition run_program (network_delay : Float.float) (choice : bool) : Z * stdout :=
  let '(r, out) := main network_delay choice [] in
  (exit_status r, out).

(** * Part II: the vocabulary of the properties *)

(** The consumption the selector computes for one [items()] pair. *)
Definition consumption (item : string * route_data) : Float.float :=
  calculate_fuel_efficiency (distance_km (snd item)) (traffic_condition (snd item)).

Definition returned {A} (c : py A) : outcome A := fst (c []).

(** What the loop state means after the entries [seen] were visited: no
    visited entry is strictly below the current minimum; the minimum is
    still [float('inf')] while no route is chosen, and otherwise it is the
    consumption of the chosen route, which is below [float('inf')] and
    which no earlier entry equals or beats. *)
Definition loop_inv (seen : traffic_snapshot) (st : selection) : Prop :=
  let '(best_route, min_fuel_consumption) := st in
  (forall e, In e seen ->
     Float.ltb (consumption e) min_fuel_consumption = false) /\
  match best_route with
  | None => min_fuel_consumption = Float.inf
  | Some r =>
      exists i d,
        nth_error seen i = Some (r, d) /\
        min_fuel_consumption = consumption (r, d) /\
        Float.ltb min_fuel_consumption Float.inf = true /\
        (forall j e, (j < i)%nat -> nth_error seen j = Some e ->
                     Float.leb (consumption e) min_fuel_consumption = false)
  end.

(** ** Rendering with two decimals *)





(** ** Concrete values *)

(** [100.0] and [7.0], the two constants of the estimator. *)
Definition f100 : Float.float := S754_finite false 7036874417766400 (-46).
Definition f7 : Float.float := S754_finite false 7881299347898368 (-50).

(** [0.84] and its successor, which Python prints [0.8400000000000001]. *)
Definition f0_84 : Float.float := S754_finite false 7566047373982433 (-53).
Definition f0_84_up : Float.float := S754_finite false 7566047373982434 (-53).

(** [1e308] *)
Definition f1e308 : Float.float := Float.of_Z (10 ^ 308).

(** [{"route_1": {"distance_km": 1e308, "traffic_condition": 1e308}}] *)
Definition overflow_snapshot : traffic_snapshot :=
  [ ("route_1"%string, mk_route_data f1e308 f1e308) ].

(** [{"route_1": {"distance_km": nan, "traffic_condition": 1.0},
      "route_2": {"distance_km": 10, "traffic_condition": 1.0}}] *)
Definition nan_snapshot : traffic_snapshot :=
  [ ("route_1"%string, mk_route_data Float.nan (Float.lit 10 1));
    ("route_2"%string, mk_route_data (Float.of_Z 10) (Float.lit 10 1)) ].

(** The successor of [0.7], which Python prints [0.7000000000000001]. *)
Definition f0_7_up : Float.float := S754_finite false 6305039478318695 (-53).

Definition fetching_line : string := "Fetching real-time traffic data...".
Definition calculating_line : string := "Calculating the most efficient route...".

(** [random.uniform(a, b)] of the standard library is
    [a + (b - a) * random()], where [random()] is [k / 2^53] for some
    [0 <= k < 2^53]. *)
Definition random_uniform (a b u : Float.float) : Float.float :=
  Float.add a (Float.mul (Float.sub b a) u).

(** [6755399441055743 / 2^53], a value of [random()] just below [0.75]. *)
Definition random_draw : Float.float := S754_finite false 6755399441055743 (-53).

(** ** Vocabulary of the further properties *)

(** Python's unary minus on a float. *)
Definition float_neg (x : Float.float) : Float.float := SFopp x.

(** The entries the loop can select: their consumption is strictly below
    the initial [float('inf')]. *)
Definition below_inf (item : string * route_data) : bool :=
  Float.ltb (consumption item) Float.inf.

(** The five lines of a run whose fetch failed with message [msg]. *)
Definition failed_run (msg : string) : list string :=
  [ fetching_line;
    ("Error fetching traffic data: " ++ msg)%string;
    calculating_line;
    "Error in finding route: Traffic data is not available."%string;
    failure_line ].

(** ** Rounding seen on integer codes

    The rounding of [SpecFloat] shifts a mantissa to the right while it
    keeps a round bit and a sticky bit, then rounds to nearest even. A
    record [(m, r, s)] at exponent [e] is read as the integer code
    [4 m + 2 r + s]: for the exact value [x] it is twice the integer part of
    [x / 2^(e-1)], plus one when that quotient is not an integer. Codes
    are monotone in the value, and so is every step of the rounding. *)

Module Round.

(** Twice the integer part of [N / D], plus one when [D] does not divide [N]. *)
Definition kappa (N D : Z) : Z := 2 * (N / D) + (if N mod D =? 0 then 0 else 1).

(** The code of a shift record and of a location. *)
Definition code_of (mrs : shr_record) : Z :=
  4 * shr_m mrs + 2 * Z.b2z (shr_r mrs) + Z.b2z (shr_s mrs).

Definition loc_code (l : location) : Z :=
  match l with
  | loc_Exact => 0
  | loc_Inexact Lt => 1
  | loc_Inexact Eq => 2
  | loc_Inexact Gt => 3
  end.

(** The code of the same value [n] exponents higher. *)
Definition shift_code (n k : Z) : Z := kappa k (2 ^ (n + 1)).

(** Round to nearest, ties to even, from a code. *)
Definition rne (k : Z) : Z :=
  let m := k / 4 in
  match k mod 4 with
  | 0 | 1 => m
  | 2 => if Z.even m then m else m + 1
  | _ => m + 1
  end.

(** The exponent function of binary64. *)
Definition fexp64 (e : Z) : Z := Z.max (e - 53) (-1074).

(** A positive mantissa and an exponent as a float, or the overflow. *)
Definition pack (m e : Z) : spec_float :=
  if e <=? 971 then S754_finite false (Z.to_pos m) e else S754_infinity false.

(** The float for a rounded mantissa [m1] at exponent [E]; a mantissa that
    reached [2^53] moves to the next exponent. *)
Definition finish (m1 E : Z) : spec_float :=
  if m1 =? 0 then S754_zero false
  else if m1 =? 2 ^ 53 then pack (2 ^ 52) (E + 1)
  else pack m1 E.

(** The rounding of the value with code [k] at exponent [e]. *)
Definition round_code (k e : Z) : spec_float :=
  let E := fexp64 (Zdigits2 (k / 4) + e) in
  finish (rne (shift_code (E - e) k)) E.

Definition canonical (m : positive) (e : Z) : Prop :=
  fexp64 (Zdigits2 (Zpos m) + e) = e.

(** The exponent chosen by [SFdiv_core_binary] for the quotient. *)
Definition div_exp (mx : positive) (ex : Z) (my : positive) (ey : Z) : Z :=
  Z.min (fexp64 (Zdigits2 (Zpos mx) + ex - (Zdigits2 (Zpos my) + ey))) (ex - ey).

(** Finite and non-negative: a zero of either sign or a positive number. *)
Definition pz (x : spec_float) : bool :=
  match x with
  | S754_zero _ | S754_finite false _ _ => true
  | _ => false
  end.

(** Non-negative, possibly infinite. *)
Definition nonneg (x : spec_float) : bool :=
  match x with
  | S754_zero _ | S754_finite false _ _ | S754_infinity false => true
  | _ => false
  end.

(** The largest finite binary64 value. *)
Definition max_float : spec_float := S754_finite false 9007199254740991 971.

End Round.

(** ** The exact value of a float *)

Module Rat.
Import QArith.

(** The rational number that a finite float stands for; the zeros stand
    for [0], and so do, by convention, the infinities and the NaN. *)
Definition float_value (x : spec_float) : Q :=
  match x with
  | S754_finite s m e => ((if s then -1 else 1) * inject_Z (Zpos m) * 2 ^ e)%Q
  | _ => 0%Q
  end.

End Rat.

(** * Part III: lemmas *)

(** ** Literals and rendering, on examples *)

Lemma literal_values :
  Float.of_Z 100 = f100 /\ Float.of_Z 7 = f7 /\
  Float.lit 84 2 = f0_84 /\
  timeout_threshold = S754_finite false 5404319552844595 (-55) /\
  Float.lit 10 1 = S754_finite false 4503599627370496 (-52) /\
  Float.valid f1e308 = true.
Proof.
  repeat split; vm_compute; reflexivity.
Qed.

(** [%.2f] rounds the exact binary value, halves to even: [0.125] and
    [0.375] are exact halves, [0.005] is slightly above one. *)
Lemma format_2f_examples :
  format_2f (Float.lit 125 3) = "0.12"%string /\
  format_2f (Float.lit 375 3) = "0.38"%string /\
  format_2f (Float.lit 5 3) = "0.01"%string /\
  format_2f (Float.of_Z 12345) = "12345.00"%string /\
  format_2f (Float.lit (-25) 1) = "-2.50"%string /\
  format_2f Float.inf = "inf"%string.
Proof.
  repeat split; vm_compute; reflexivity.
Qed.

(** ** The order of float comparison *)

Module FloatOrder.
Import Float.

Ltac cmp_cases :=
  repeat match goal with
  | |- context [Pos.compare_cont Eq ?a ?b] =>
      change (Pos.compare_cont Eq a b) with (Pos.compare a b)
  | H : context [Pos.compare_cont Eq ?a ?b] |- _ =>
      change (Pos.compare_cont Eq a b) with (Pos.compare a b) in H
  end;
  repeat match goal with
  | H : context [Z.compare ?a ?b] |- _ =>
      destruct (Z.compare_spec a b); simpl in H; try discriminate H
  | H : context [Pos.compare ?a ?b] |- _ =>
      destruct (Pos.compare_spec a b); simpl in H; try discriminate H
  | |- context [Z.compare ?a ?b] =>
      destruct (Z.compare_spec a b); simpl; try lia
  | |- context [Pos.compare ?a ?b] =>
      destruct (Pos.compare_spec a b); simpl; try lia
  end;
  try reflexivity; try discriminate; try lia.

Ltac by_cases x :=
  destruct x as [[] | [] | | [] ? ?]; simpl in *; try discriminate; try reflexivity.

Lemma ltb_irrefl (x : float) : ltb x x = false.
Proof.
  unfold ltb, SFltb. by_cases x; cmp_cases.
Qed.

Lemma ltb_trans (x y z : float) :
  ltb x y = true -> ltb y z = true -> ltb x z = true.
Proof.
  unfold ltb, SFltb. intros Hxy Hyz.
  by_cases x; by_cases y; by_cases z; cmp_cases.
Qed.

Lemma leb_ltb_trans (x y z : float) :
  leb x y = true -> ltb y z = true -> ltb x z = true.
Proof.
  unfold leb, ltb, SFleb, SFltb. intros Hxy Hyz.
  by_cases x; by_cases y; by_cases z; cmp_cases.
Qed.

Lemma ltb_below_inf (x y : float) : ltb x y = true -> ltb x inf = true.
Proof.
  unfold ltb, SFltb. intros Hxy.
  by_cases x; by_cases y.
Qed.

Lemma not_ltb_leb (x y : float) :
  ltb x y = false -> is_nan x = false -> is_nan y = false -> leb y x = true.
Proof.
  unfold leb, ltb, SFleb, SFltb. intros Hxy Hx Hy.
  by_cases x; by_cases y; cmp_cases.
Qed.

Lemma ltb_not_nan (x y : float) : ltb x y = true -> is_nan x = false.
Proof.
  unfold ltb, SFltb. intros Hxy. by_cases x.
Qed.

End FloatOrder.

(** ** Rounding is monotone *)

Module RoundFacts.
Import Round.

(** *** Codes of rationals *)

(** The code is monotone in the numerator. *)
Lemma kappa_mono (N N' D : Z) : 0 < D -> N <= N' -> kappa N D <= kappa N' D.
Proof.
  intros HD HN. unfold kappa.
  pose proof (Z.div_mod N D ltac:(lia)) as E1.
  pose proof (Z.div_mod N' D ltac:(lia)) as E2.
  pose proof (Z.mod_pos_bound N D HD) as B1.
  pose proof (Z.mod_pos_bound N' D HD) as B2.
  pose proof (Z.div_le_mono N N' D HD HN) as Hq.
  destruct (Z.eqb_spec (N mod D) 0), (Z.eqb_spec (N' mod D) 0); try lia.
  assert (N / D < N' / D \/ N / D = N' / D) as [H | H] by lia; [lia |].
  rewrite H in E1. lia.
Qed.

(** The code depends on the quotient only. *)
Lemma kappa_scale (a N D : Z) : 0 < a -> 0 < D -> kappa (a * N) (a * D) = kappa N D.
Proof.
  intros Ha HD. unfold kappa.
  rewrite Z.div_mul_cancel_l by lia.
  rewrite Z.mul_mod_distr_l by lia.
  destruct (Z.eqb_spec (N mod D) 0) as [-> | Hn].
  - now rewrite Z.mul_0_r.
  - destruct (Z.eqb_spec (a * (N mod D)) 0); [nia | reflexivity].
Qed.

(** Coarsening a code: the code of [N / D] read [P] times coarser is the
    code of [N / (D * P)]. *)
Lemma kappa_kappa (N D P : Z) :
  0 < D -> 0 < P -> kappa (kappa N D) (2 * P) = kappa N (D * P).
Proof.
  intros HD HP. unfold kappa at 1 3.
  set (t := if N mod D =? 0 then 0 else 1).
  assert (Ht : kappa N D = 2 * (N / D) + t) by reflexivity.
  rewrite Ht.
  assert (Hq : (2 * (N / D) + t) / (2 * P) = N / (D * P)).
  { rewrite <- Z.div_div by lia.
    replace ((2 * (N / D) + t) / 2) with (N / D).
    - now rewrite Z.div_div by lia.
    - subst t. destruct (N mod D =? 0); Z.div_mod_to_equations; lia. }
  rewrite Hq. f_equal.
  rewrite (Z.rem_mul_r N D P) by lia.
  rewrite (Z.rem_mul_r (2 * (N / D) + t) 2 P) by lia.
  replace ((2 * (N / D) + t) / 2) with (N / D)
    by (subst t; destruct (N mod D =? 0); Z.div_mod_to_equations; lia).
  replace ((2 * (N / D) + t) mod 2) with t
    by (subst t; destruct (N mod D =? 0); Z.div_mod_to_equations; lia).
  pose proof (Z.mod_pos_bound N D HD).
  pose proof (Z.mod_pos_bound (N / D) P HP).
  subst t.
  destruct (Z.eqb_spec (N mod D) 0) as [E | E].
  - rewrite E.
    destruct (Z.eqb_spec (0 + 2 * ((N / D) mod P)) 0),
             (Z.eqb_spec (0 + D * ((N / D) mod P)) 0); try reflexivity; nia.
  - destruct (Z.eqb_spec (1 + 2 * ((N / D) mod P)) 0),
             (Z.eqb_spec (N mod D + D * ((N / D) mod P)) 0); try reflexivity; nia.
Qed.

Lemma kappa_nonneg (N D : Z) : 0 < D -> 0 <= N -> 0 <= kappa N D.
Proof.
  intros HD HN. unfold kappa.
  pose proof (Z.div_pos N D HN HD).
  destruct (N mod D =? 0); lia.
Qed.

Lemma kappa_div4 (N D : Z) : 0 < D -> kappa N D / 4 = N / (2 * D).
Proof.
  intros HD. unfold kappa.
  rewrite (Z.mul_comm 2 D), <- Z.div_div by lia.
  destruct (N mod D =? 0); Z.div_mod_to_equations; lia.
Qed.

(** *** Shifting a code to a higher exponent *)
Lemma shift_code_0 (k : Z) : shift_code 0 k = k.
Proof.
  unfold shift_code, kappa. change (2 ^ (0 + 1)) with 2.
  destruct (Z.eqb_spec (k mod 2) 0); Z.div_mod_to_equations; lia.
Qed.

Lemma shift_code_add (a b k : Z) :
  0 <= a -> 0 <= b -> shift_code a (shift_code b k) = shift_code (a + b) k.
Proof.
  intros Ha Hb. unfold shift_code.
  replace (2 ^ (a + 1)) with (2 * 2 ^ a) by (rewrite Z.pow_add_r by lia; lia).
  rewrite kappa_kappa by (apply Z.pow_pos_nonneg; lia).
  f_equal. rewrite <- Z.pow_add_r by lia. f_equal. lia.
Qed.

Lemma shift_code_mono (n k k' : Z) :
  0 <= n -> k <= k' -> shift_code n k <= shift_code n k'.
Proof.
  intros Hn Hk. apply kappa_mono; [apply Z.pow_pos_nonneg; lia | exact Hk].
Qed.

Lemma kappa_1 (N : Z) : kappa N 1 = 2 * N.
Proof.
  unfold kappa. rewrite Z.div_1_r, Z.mod_1_r. simpl. lia.
Qed.

(** An exact mantissa scaled down and shifted back is unchanged. *)
Lemma shift_code_exact (j M : Z) : 0 <= j -> shift_code j (4 * (M * 2 ^ j)) = 4 * M.
Proof.
  intros Hj. unfold shift_code.
  assert (Hp : 0 < 2 ^ (j + 1)) by (apply Z.pow_pos_nonneg; lia).
  replace (4 * (M * 2 ^ j)) with (2 ^ (j + 1) * (2 * M))
    by (rewrite Z.pow_add_r by lia; change (2 ^ 1) with 2; lia).
  replace (kappa (2 ^ (j + 1) * (2 * M)) (2 ^ (j + 1)))
    with (kappa (2 ^ (j + 1) * (2 * M)) (2 ^ (j + 1) * 1)) by (now rewrite Z.mul_1_r).
  rewrite kappa_scale by lia. rewrite kappa_1. lia.
Qed.

Lemma shift_code_kappa (j N D : Z) :
  0 <= j -> 0 < D -> shift_code j (kappa (N * 2 ^ j) D) = kappa N D.
Proof.
  intros Hj HD. unfold shift_code.
  assert (Hp : 0 < 2 ^ j) by (apply Z.pow_pos_nonneg; lia).
  replace (2 ^ (j + 1)) with (2 * 2 ^ j)
    by (rewrite Z.pow_add_r by lia; change (2 ^ 1) with 2; lia).
  rewrite kappa_kappa by lia.
  rewrite (Z.mul_comm N), (Z.mul_comm D). now apply kappa_scale.
Qed.

(** *** The shift records of [SpecFloat] on codes *)

(** One step of [shr_1] is a shift of the code by one exponent. *)
Lemma code_of_shr_1 (mrs : shr_record) :
  0 <= shr_m mrs ->
  0 <= shr_m (shr_1 mrs) /\ code_of (shr_1 mrs) = shift_code 1 (code_of mrs).
Proof.
  destruct mrs as [m r s]. unfold code_of, shift_code, kappa.
  change (2 ^ (1 + 1)) with 4.
  cbn [shr_m shr_r shr_s]. intros Hm.
  destruct m as [| [p | p |] | p]; try lia; cbn [shr_1 shr_m shr_r shr_s];
    try rewrite (Pos2Z.inj_xI p); try rewrite (Pos2Z.inj_xO p);
    (split; [lia |]); destruct r, s; cbn [Z.b2z orb].
  all: match goal with
    | |- context [?a mod 4 =? 0] => destruct (Z.eqb_spec (a mod 4) 0)
    end; Z.div_mod_to_equations; lia.
Qed.

Lemma code_of_iter_shr_1 (p : positive) (mrs : shr_record) :
  0 <= shr_m mrs ->
  0 <= shr_m (iter_pos shr_1 p mrs) /\
  code_of (iter_pos shr_1 p mrs) = shift_code (Zpos p) (code_of mrs).
Proof.
  revert mrs. induction p as [p IH | p IH |]; intros mrs Hm; cbn [iter_pos].
  - destruct (code_of_shr_1 mrs Hm) as [H1 E1].
    destruct (IH _ H1) as [H2 E2]. destruct (IH _ H2) as [H3 E3].
    split; [exact H3 |]. rewrite E3, E2, E1.
    rewrite !shift_code_add by lia. f_equal. lia.
  - destruct (IH _ Hm) as [H2 E2]. destruct (IH _ H2) as [H3 E3].
    split; [exact H3 |]. rewrite E3, E2.
    rewrite !shift_code_add by lia. f_equal. lia.
  - apply code_of_shr_1, Hm.
Qed.

(** [round_nearest_even] reads the code of the record. *)
Lemma rne_code_of (mrs : shr_record) :
  round_nearest_even (shr_m mrs) (loc_of_shr_record mrs) = rne (code_of mrs) /\
  shr_m mrs = code_of mrs / 4.
Proof.
  destruct mrs as [m r s]. unfold code_of, rne. cbn [shr_m shr_r shr_s].
  set (c := 2 * Z.b2z r + Z.b2z s).
  assert (Hc : 0 <= c < 4) by (subst c; destruct r, s; cbn; lia).
  replace (4 * m + 2 * Z.b2z r + Z.b2z s) with (4 * m + c) by (subst c; lia).
  replace ((4 * m + c) / 4) with m by (Z.div_mod_to_equations; lia).
  replace ((4 * m + c) mod 4) with c by (Z.div_mod_to_equations; lia).
  split; [| reflexivity]. subst c. now destruct r, s.
Qed.

Lemma code_of_loc (m : Z) (l : location) :
  code_of (shr_record_of_loc m l) = 4 * m + loc_code l /\
  shr_m (shr_record_of_loc m l) = m.
Proof.
  destruct l as [| []]; unfold code_of; cbn [shr_record_of_loc shr_m shr_r shr_s Z.b2z loc_code]; split; lia.
Qed.

(** *** Number of binary digits *)
Lemma digits2_pos_size (p : positive) : digits2_pos p = Pos.size p.
Proof.
  induction p; simpl; congruence.
Qed.

Lemma Zdigits2_log2 (m : Z) : 0 < m -> Zdigits2 m = Z.log2 m + 1.
Proof.
  destruct m as [| p | p]; try lia. intros _. unfold Zdigits2.
  rewrite digits2_pos_size. destruct p; simpl; lia.
Qed.

Lemma Zdigits2_nonneg (m : Z) : 0 <= Zdigits2 m.
Proof. destruct m; simpl; lia. Qed.

Lemma Zdigits2_pos (m : Z) : 0 < m -> 0 < Zdigits2 m.
Proof. destruct m; simpl; lia. Qed.

Lemma Zdigits2_bounds (m : Z) :
  0 < m -> 2 ^ (Zdigits2 m - 1) <= m < 2 ^ Zdigits2 m.
Proof.
  intros Hm. rewrite (Zdigits2_log2 m Hm).
  replace (Z.log2 m + 1 - 1) with (Z.log2 m) by lia.
  apply (Z.log2_spec m Hm).
Qed.

Lemma Zdigits2_unique (m d : Z) :
  0 < d -> 2 ^ (d - 1) <= m < 2 ^ d -> Zdigits2 m = d.
Proof.
  intros Hd Hm.
  assert (0 < m) by (pose proof (Z.pow_pos_nonneg 2 (d - 1)); lia).
  rewrite Zdigits2_log2 by assumption.
  rewrite (Z.log2_unique m (d - 1)); try lia.
  now replace (Z.succ (d - 1)) with d by lia.
Qed.

Lemma Zdigits2_mono (m m' : Z) : 0 <= m <= m' -> Zdigits2 m <= Zdigits2 m'.
Proof.
  intros [H0 H]. destruct (Z.eq_dec m 0) as [-> | Hm].
  - apply Zdigits2_nonneg.
  - rewrite !Zdigits2_log2 by lia. pose proof (Z.log2_le_mono m m' H). lia.
Qed.

Lemma Zdigits2_lt_pow2 (m d : Z) : 0 <= m -> 0 <= d -> (m < 2 ^ d <-> Zdigits2 m <= d).
Proof.
  intros Hm Hd. destruct (Z.eq_dec m 0) as [-> | Hn].
  - simpl. pose proof (Z.pow_pos_nonneg 2 d). lia.
  - rewrite Zdigits2_log2 by lia.
    pose proof (Z.log2_lt_pow2 m d ltac:(lia)). lia.
Qed.

Lemma Zdigits2_div_pow2 (m j : Z) :
  0 <= m -> 0 <= j -> Zdigits2 (m / 2 ^ j) = Z.max (Zdigits2 m - j) 0.
Proof.
  intros Hm Hj.
  assert (Hp : 0 < 2 ^ j) by (apply Z.pow_pos_nonneg; lia).
  destruct (Z.eq_dec m 0) as [-> | Hn].
  - rewrite Z.div_0_l by lia. simpl. lia.
  - destruct (Z_lt_le_dec m (2 ^ j)) as [Hlt | Hge].
    + rewrite Z.div_small by lia.
      apply (Zdigits2_lt_pow2 m j Hm Hj) in Hlt. simpl. lia.
    + assert (Hq : 0 < m / 2 ^ j) by (apply Z.div_str_pos; lia).
      rewrite (Zdigits2_log2 _ Hq), (Zdigits2_log2 m) by lia.
      rewrite <- Z.shiftr_div_pow2 by lia.
      rewrite Z.log2_shiftr by lia.
      apply Z.log2_le_pow2 in Hge; lia.
Qed.

Lemma Zdigits2_pow2 (n : Z) : 0 <= n -> Zdigits2 (2 ^ n) = n + 1.
Proof.
  intros Hn. apply Zdigits2_unique; [lia |].
  replace (n + 1 - 1) with n by lia. split; [lia |].
  apply Z.pow_lt_mono_r; lia.
Qed.

Lemma Zdigits2_mul (a b : Z) :
  0 < a -> 0 < b -> Zdigits2 a + Zdigits2 b - 1 <= Zdigits2 (a * b).
Proof.
  intros Ha Hb.
  pose proof (Zdigits2_bounds a Ha) as [Ba _].
  pose proof (Zdigits2_bounds b Hb) as [Bb _].
  pose proof (Zdigits2_pos a Ha). pose proof (Zdigits2_pos b Hb).
  assert (Hp : 2 ^ (Zdigits2 a + Zdigits2 b - 2) <= a * b).
  { replace (Zdigits2 a + Zdigits2 b - 2) with ((Zdigits2 a - 1) + (Zdigits2 b - 1)) by lia.
    rewrite Z.pow_add_r by lia.
    apply Z.mul_le_mono_nonneg; trivial; apply Z.pow_nonneg; lia. }
  pose proof (Zdigits2_mono _ _ (conj (Z.pow_nonneg 2 (Zdigits2 a + Zdigits2 b - 2) ltac:(lia)) Hp)) as Hm.
  rewrite Zdigits2_pow2 in Hm by lia. lia.
Qed.

Lemma fexp_fexp64 (e : Z) : fexp 53 1024 e = fexp64 e.
Proof. reflexivity. Qed.

(** *** Rounding to nearest even on codes *)
Lemma rne_cases (k : Z) :
  let m := k / 4 in
  (k mod 4 = 0 /\ rne k = m) \/ (k mod 4 = 1 /\ rne k = m) \/
  (k mod 4 = 2 /\ rne k = if Z.even m then m else m + 1) \/
  (k mod 4 = 3 /\ rne k = m + 1).
Proof.
  intros m. unfold rne. fold m.
  assert (H : k mod 4 = 0 \/ k mod 4 = 1 \/ k mod 4 = 2 \/ k mod 4 = 3)
    by (Z.div_mod_to_equations; lia).
  destruct H as [H | [H | [H | H]]]; rewrite H; auto.
Qed.

Lemma rne_bounds (k : Z) : k / 4 <= rne k <= k / 4 + 1.
Proof.
  destruct (rne_cases k) as [[_ ->] | [[_ ->] | [[_ ->] | [_ ->]]]];
    try destruct (Z.even _); lia.
Qed.

Lemma rne_mono (k k' : Z) : k <= k' -> rne k <= rne k'.
Proof.
  intros H.
  assert (Hq : k / 4 <= k' / 4) by (apply Z.div_le_mono; lia).
  assert (Hc : k / 4 < k' / 4 \/ k / 4 = k' / 4) by lia.
  destruct Hc as [Hc | Hc].
  - pose proof (rne_bounds k). pose proof (rne_bounds k'). lia.
  - assert (Hm : k mod 4 <= k' mod 4) by (Z.div_mod_to_equations; lia).
    destruct (rne_cases k) as [[H1 ->] | [[H1 ->] | [[H1 ->] | [H1 ->]]]];
    destruct (rne_cases k') as [[H2 ->] | [[H2 ->] | [[H2 ->] | [H2 ->]]]];
      rewrite <- ?Hc; try destruct (Z.even (k / 4)); lia.
Qed.

(** *** The rounding of [SpecFloat] on codes *)

(** [shr_fexp] shifts the code to the exponent given by the digits. *)
Lemma shr_fexp_spec (m e : Z) (l : location) :
  0 <= m -> e <= fexp64 (Zdigits2 m + e) ->
  exists mrs,
    shr_fexp 53 1024 m e l = (mrs, fexp64 (Zdigits2 m + e)) /\
    0 <= shr_m mrs /\
    code_of mrs = shift_code (fexp64 (Zdigits2 m + e) - e) (4 * m + loc_code l).
Proof.
  intros Hm He. unfold shr_fexp. rewrite fexp_fexp64.
  set (E := fexp64 (Zdigits2 m + e)) in *.
  destruct (code_of_loc m l) as [Hc Hs].
  unfold shr. destruct (E - e) as [| p | p] eqn:Hn; try lia.
  - exists (shr_record_of_loc m l). rewrite shift_code_0, Hs.
    repeat split; trivial. f_equal. lia.
  - destruct (code_of_iter_shr_1 p (shr_record_of_loc m l)) as [H1 H2];
      [now rewrite Hs |].
    eexists. repeat split; [| exact H1 | now rewrite H2, Hc].
    f_equal. lia.
Qed.

(** The rounded mantissa is at most [2^53], and at least [2^52] above the
    minimal exponent. *)
Lemma shifted_bounds (k e : Z) :
  0 <= k -> e <= fexp64 (Zdigits2 (k / 4) + e) ->
  let E := fexp64 (Zdigits2 (k / 4) + e) in
  let r := rne (shift_code (E - e) k) in
  0 <= r <= 2 ^ 53 /\ (-1074 < E -> 2 ^ 52 <= r) /\ -1074 <= E.
Proof.
  intros Hk He E r.
  assert (Hm : 0 <= k / 4) by (apply Z.div_pos; lia).
  assert (Hn : 0 <= E - e) by (subst E; lia).
  assert (Hdiv : shift_code (E - e) k / 4 = (k / 4) / 2 ^ (E - e)).
  { unfold shift_code. rewrite kappa_div4 by (apply Z.pow_pos_nonneg; lia).
    rewrite Z.pow_add_r by lia. rewrite Z.div_div by (try apply Z.pow_pos_nonneg; lia).
    f_equal. lia. }
  pose proof (rne_bounds (shift_code (E - e) k)) as Hr. fold r in Hr.
  rewrite Hdiv in Hr.
  pose proof (Zdigits2_div_pow2 (k / 4) (E - e) Hm Hn) as Hd.
  assert (Hq : 0 <= (k / 4) / 2 ^ (E - e))
    by (apply Z.div_pos; [lia | apply Z.pow_pos_nonneg; lia]).
  assert (Hlt : (k / 4) / 2 ^ (E - e) < 2 ^ 53).
  { apply Zdigits2_lt_pow2; try lia. rewrite Hd. subst E. unfold fexp64 in *. lia. }
  repeat split; try lia.
  - intros HE.
    assert (Hd53 : Zdigits2 ((k / 4) / 2 ^ (E - e)) = 53)
      by (rewrite Hd; subst E; unfold fexp64 in *; lia).
    assert (0 < (k / 4) / 2 ^ (E - e)).
    { destruct (Z.eq_dec ((k / 4) / 2 ^ (E - e)) 0) as [E0 | ]; [| lia].
      rewrite E0 in Hd53. discriminate. }
    pose proof (Zdigits2_bounds _ H) as Hb. rewrite Hd53 in Hb.
    change (53 - 1) with 52 in Hb. lia.
  - subst E. unfold fexp64. lia.
Qed.

(** [binary_round_aux] on a non-negative mantissa is [round_code]. *)
Lemma round_aux_spec (m e : Z) (l : location) :
  0 <= m -> e <= fexp64 (Zdigits2 m + e) ->
  binary_round_aux 53 1024 false m e l = round_code (4 * m + loc_code l) e.
Proof.
  intros Hm He.
  assert (Hl : 0 <= loc_code l < 4) by (destruct l as [| []]; simpl; lia).
  assert (Hk4 : (4 * m + loc_code l) / 4 = m) by (Z.div_mod_to_equations; lia).
  unfold binary_round_aux, round_code. rewrite Hk4.
  destruct (shr_fexp_spec m e l Hm He) as (mrs & -> & Hs & Hc).
  destruct (rne_code_of mrs) as [-> _]. rewrite Hc.
  pose proof (shifted_bounds (4 * m + loc_code l) e ltac:(lia)) as Hb.
  rewrite Hk4 in Hb. specialize (Hb He). cbv zeta in Hb.
  set (E := fexp64 (Zdigits2 m + e)) in *.
  set (r := rne (shift_code (E - e) (4 * m + loc_code l))) in *.
  destruct Hb as (Hr & Hnorm & HE).
  assert (Hp52 : 2 ^ 52 = 4503599627370496) by reflexivity.
  assert (Hp53 : 2 ^ 53 = 9007199254740992) by reflexivity.
  unfold finish.
  destruct (Z.eqb_spec r 0) as [-> | Hr0].
  - (* the mantissa rounds to zero *)
    assert (HE' : fexp64 (Zdigits2 0 + E) - E <= 0) by (unfold fexp64; simpl; lia).
    unfold shr_fexp. rewrite fexp_fexp64. unfold shr.
    destruct (fexp64 (Zdigits2 0 + E) - E); try lia; reflexivity.
  - destruct (Z.eqb_spec r (2 ^ 53)) as [-> | Hr1].
    + (* the mantissa carries into the next binade *)
      unfold shr_fexp. rewrite fexp_fexp64.
      replace (fexp64 (Zdigits2 (2 ^ 53) + E) - E) with 1
        by (change (Zdigits2 (2 ^ 53)) with 54; unfold fexp64; lia).
      unfold pack. cbn. reflexivity.
    + assert (Hd : Zdigits2 r <= 53) by (apply Zdigits2_lt_pow2; lia).
      assert (Hd' : -1074 < E -> Zdigits2 r = 53).
      { intros H. apply Zdigits2_unique; [lia |]. change (53 - 1) with 52.
        specialize (Hnorm H). lia. }
      assert (HE2 : fexp64 (Zdigits2 r + E) = E) by (unfold fexp64; lia).
      unfold shr_fexp. rewrite fexp_fexp64, HE2, Z.sub_diag.
      unfold shr, pack. cbn [shr_record_of_loc shr_m fst snd].
      destruct r; try lia. reflexivity.
Qed.

(** *** Rounding is monotone in the code *)
Lemma leb_pack (m1 e1 m2 e2 : Z) :
  0 < m1 -> 0 < m2 ->
  e1 < e2 \/ (e1 = e2 /\ m1 <= m2) ->
  SFleb (pack m1 e1) (pack m2 e2) = true.
Proof.
  intros H1 H2 H. unfold pack.
  destruct (Z.leb_spec e1 971), (Z.leb_spec e2 971); try reflexivity; try lia.
  unfold SFleb, SFcompare.
  destruct (Z.compare_spec e1 e2); try reflexivity; try lia.
  change (Pos.compare_cont Eq (Z.to_pos m1) (Z.to_pos m2))
    with (Pos.compare (Z.to_pos m1) (Z.to_pos m2)).
  rewrite <- Z2Pos.inj_compare by lia.
  destruct (Z.compare_spec m1 m2); try reflexivity; lia.
Qed.

Lemma leb_finish (r1 E1 r2 E2 : Z) :
  0 <= r1 <= 2 ^ 53 -> 0 <= r2 <= 2 ^ 53 ->
  (E1 = E2 /\ r1 <= r2) \/ (E1 < E2 /\ 2 ^ 52 <= r2) ->
  SFleb (finish r1 E1) (finish r2 E2) = true.
Proof.
  intros H1 H2 H.
  assert (Hp52 : 2 ^ 52 = 4503599627370496) by reflexivity.
  assert (Hp53 : 2 ^ 53 = 9007199254740992) by reflexivity.
  unfold finish.
  destruct (Z.eqb_spec r1 0) as [-> | Hr1].
  - destruct (Z.eqb_spec r2 0); [reflexivity |].
    destruct (Z.eqb_spec r2 (2 ^ 53)); unfold pack;
      destruct (_ <=? 971); reflexivity.
  - destruct (Z.eqb_spec r2 0) as [-> | Hr2]; [lia |].
    destruct (Z.eqb_spec r1 (2 ^ 53)), (Z.eqb_spec r2 (2 ^ 53));
      apply leb_pack; lia.
Qed.

Lemma round_code_mono (k1 k2 e : Z) :
  0 <= k1 <= k2 ->
  e <= fexp64 (Zdigits2 (k1 / 4) + e) ->
  e <= fexp64 (Zdigits2 (k2 / 4) + e) ->
  SFleb (round_code k1 e) (round_code k2 e) = true.
Proof.
  intros Hk He1 He2.
  destruct (shifted_bounds k1 e ltac:(lia) He1) as (Hr1 & Hn1 & HE1).
  destruct (shifted_bounds k2 e ltac:(lia) He2) as (Hr2 & Hn2 & HE2).
  unfold round_code.
  set (E1 := fexp64 (Zdigits2 (k1 / 4) + e)) in *.
  set (E2 := fexp64 (Zdigits2 (k2 / 4) + e)) in *.
  assert (Hd : Zdigits2 (k1 / 4) <= Zdigits2 (k2 / 4)).
  { apply Zdigits2_mono. split; [apply Z.div_pos; lia | apply Z.div_le_mono; lia]. }
  assert (HE : E1 <= E2) by (subst E1 E2; unfold fexp64; lia).
  apply leb_finish; trivial.
  destruct (Z.eq_dec E1 E2) as [Heq | Hne].
  - left. split; [exact Heq |]. rewrite <- Heq.
    apply rne_mono, shift_code_mono; lia.
  - right. split; [lia | apply Hn2; lia].
Qed.

(** A code and the same value given at a lower exponent round alike. *)
Lemma round_code_preshift (k0 e0 j : Z) :
  0 <= k0 -> 0 <= j ->
  e0 + j <= fexp64 (Zdigits2 (shift_code j k0 / 4) + (e0 + j)) ->
  round_code (shift_code j k0) (e0 + j) = round_code k0 e0 /\
  e0 <= fexp64 (Zdigits2 (k0 / 4) + e0).
Proof.
  intros Hk Hj He.
  assert (Hm : 0 <= k0 / 4) by (apply Z.div_pos; lia).
  assert (Hdiv : shift_code j k0 / 4 = (k0 / 4) / 2 ^ j).
  { unfold shift_code. rewrite kappa_div4 by (apply Z.pow_pos_nonneg; lia).
    rewrite Z.pow_add_r by lia. rewrite Z.div_div by (try apply Z.pow_pos_nonneg; lia).
    f_equal. lia. }
  pose proof (Zdigits2_div_pow2 (k0 / 4) j Hm Hj) as Hd.
  rewrite Hdiv, Hd in He.
  assert (HE : fexp64 (Z.max (Zdigits2 (k0 / 4) - j) 0 + (e0 + j)) =
               fexp64 (Zdigits2 (k0 / 4) + e0)) by (unfold fexp64 in *; lia).
  split; [| unfold fexp64 in *; lia].
  unfold round_code. rewrite Hdiv, Hd, HE. rewrite HE in He.
  set (E := fexp64 (Zdigits2 (k0 / 4) + e0)) in *.
  rewrite shift_code_add by lia. do 3 f_equal. lia.
Qed.

Lemma round_code_rebase (k0 e0 e : Z) :
  0 <= k0 -> e0 <= e ->
  e <= fexp64 (Zdigits2 (shift_code (e - e0) k0 / 4) + e) ->
  round_code (shift_code (e - e0) k0) e = round_code k0 e0 /\
  e0 <= fexp64 (Zdigits2 (k0 / 4) + e0).
Proof.
  intros Hk He Hpre.
  replace e with (e0 + (e - e0)) in Hpre at 1 3 by lia.
  replace (round_code (shift_code (e - e0) k0) e)
    with (round_code (shift_code (e - e0) k0) (e0 + (e - e0))) by (f_equal; lia).
  apply round_code_preshift; trivial. lia.
Qed.

(** *** Multiplication and division of positive floats *)

(** The quotient and the location computed by [SFdiv_core_binary] form the
    code of the exact quotient. *)
Lemma div_code (N D : Z) :
  0 <= N -> 0 < D ->
  4 * (N / D) + loc_code (new_location D (N mod D)) = kappa (2 * N) D.
Proof.
  intros HN HD.
  pose proof (Z.div_mod N D ltac:(lia)) as E.
  pose proof (Z.mod_pos_bound N D HD) as B.
  set (q := N / D) in *. set (r := N mod D) in *.
  assert (Hk : kappa (2 * N) D =
               4 * q + (if r =? 0 then 0 else
                          match 2 * r ?= D with Lt => 1 | Eq => 2 | Gt => 3 end)).
  { unfold kappa. destruct (Z.eqb_spec r 0) as [Hr | Hr].
    - assert (E2 : 2 * N = (2 * q) * D) by lia.
      rewrite E2, Z.div_mul, Z.mod_mul by lia. rewrite Z.eqb_refl. lia.
    - destruct (Z.compare_spec (2 * r) D) as [Hc | Hc | Hc].
      + assert (E2 : 2 * N = (2 * q + 1) * D) by lia.
        rewrite E2, Z.div_mul, Z.mod_mul by lia. rewrite Z.eqb_refl. lia.
      + rewrite <- (Z.div_unique (2 * N) D (2 * q) (2 * r)) by lia.
        rewrite <- (Z.mod_unique (2 * N) D (2 * q) (2 * r)) by lia.
        destruct (Z.eqb_spec (2 * r) 0); lia.
      + rewrite <- (Z.div_unique (2 * N) D (2 * q + 1) (2 * r - D)) by lia.
        rewrite <- (Z.mod_unique (2 * N) D (2 * q + 1) (2 * r - D)) by lia.
        destruct (Z.eqb_spec (2 * r - D) 0); lia. }
  rewrite Hk. f_equal.
  unfold new_location, new_location_even, new_location_odd.
  destruct (Z.even D) eqn:Hev.
  - destruct (Z.eqb_spec r 0); [reflexivity |].
    destruct (Z.compare_spec (2 * r) D); reflexivity.
  - destruct (Z.eqb_spec r 0); [reflexivity |].
    assert (Hodd : Z.odd D = true) by (rewrite <- Z.negb_even, Hev; reflexivity).
    apply Z.odd_spec in Hodd as [h Hh].
    destruct (Z.compare_spec (2 * r + 1) D), (Z.compare_spec (2 * r) D);
      try reflexivity; lia.
Qed.

Lemma valid_canonical (s : bool) (m : positive) (e : Z) :
  valid_binary 53 1024 (S754_finite s m e) = true ->
  canonical m e /\ e <= 971.
Proof.
  unfold valid_binary, bounded, canonical_mantissa, canonical.
  rewrite fexp_fexp64. intros H. apply andb_true_iff in H as [H1 H2].
  apply Z.eqb_eq in H1. apply Z.leb_le in H2. split; [exact H1 | exact H2].
Qed.

Lemma canonical_bounds (m : positive) (e : Z) :
  canonical m e ->
  Zpos m < 2 ^ 53 /\ -1074 <= e /\ (-1074 < e -> 2 ^ 52 <= Zpos m).
Proof.
  unfold canonical, fexp64. intros H.
  pose proof (Zdigits2_bounds (Zpos m) ltac:(lia)) as [B1 B2].
  pose proof (Zdigits2_pos (Zpos m) ltac:(lia)) as Hd.
  repeat split; try lia.
  - apply Zdigits2_lt_pow2; lia.
  - intros He. replace (Zdigits2 (Zpos m)) with 53 in B1 by lia. exact B1.
Qed.

Lemma mul_spec (mx : positive) (ex : Z) (my : positive) (ey : Z) :
  canonical mx ex -> canonical my ey ->
  SFmul 53 1024 (S754_finite false mx ex) (S754_finite false my ey) =
    round_code (4 * (Zpos mx * Zpos my)) (ex + ey) /\
  ex + ey <= fexp64 (Zdigits2 ((4 * (Zpos mx * Zpos my)) / 4) + (ex + ey)).
Proof.
  unfold canonical. intros Hx Hy.
  assert (Hk4 : (4 * (Zpos mx * Zpos my)) / 4 = Zpos mx * Zpos my)
    by (Z.div_mod_to_equations; lia).
  rewrite Hk4.
  pose proof (Zdigits2_mul (Zpos mx) (Zpos my) ltac:(lia) ltac:(lia)) as Hd.
  pose proof (Zdigits2_pos (Zpos mx) ltac:(lia)).
  pose proof (Zdigits2_pos (Zpos my) ltac:(lia)).
  assert (Hpre : ex + ey <= fexp64 (Zdigits2 (Zpos mx * Zpos my) + (ex + ey)))
    by (unfold fexp64 in *; lia).
  split; [| exact Hpre].
  unfold SFmul. cbn [xorb]. rewrite Pos2Z.inj_mul.
  rewrite round_aux_spec by (trivial; lia).
  cbn [loc_code]. now rewrite Z.add_0_r.
Qed.

Lemma div_spec (mx : positive) (ex : Z) (my : positive) (ey : Z) :
  let e' := div_exp mx ex my ey in
  let k := kappa (2 * (Zpos mx * 2 ^ (ex - ey - e'))) (Zpos my) in
  SFdiv 53 1024 (S754_finite false mx ex) (S754_finite false my ey) = round_code k e' /\
  0 <= k /\ e' <= fexp64 (Zdigits2 (k / 4) + e').
Proof.
  intros e' k.
  set (s := ex - ey - e') in *.
  assert (Hs : 0 <= s) by (subst s e'; unfold div_exp; lia).
  assert (Hp : 0 < 2 ^ s) by (apply Z.pow_pos_nonneg; lia).
  set (N := Zpos mx * 2 ^ s) in *.
  assert (HN : 0 < N) by (subst N; lia).
  pose proof (div_code N (Zpos my) ltac:(lia) ltac:(lia)) as Hcode. fold k in Hcode.
  set (q := N / Zpos my) in *.
  assert (Hq : 0 <= q) by (subst q; apply Z.div_pos; lia).
  assert (Hl : 0 <= loc_code (new_location (Zpos my) (N mod Zpos my)) < 4).
  { destruct (new_location _ _) as [| []]; simpl; lia. }
  assert (Hk4 : k / 4 = q) by (rewrite <- Hcode; Z.div_mod_to_equations; lia).
  assert (Hpre : e' <= fexp64 (Zdigits2 q + e')).
  { pose proof (Zdigits2_bounds (Zpos mx) ltac:(lia)) as [Bx1 Bx2].
    pose proof (Zdigits2_bounds (Zpos my) ltac:(lia)) as [By1 By2].
    pose proof (Zdigits2_pos (Zpos mx) ltac:(lia)) as Hdx.
    pose proof (Zdigits2_pos (Zpos my) ltac:(lia)) as Hdy.
    set (dx := Zdigits2 (Zpos mx)) in *. set (dy := Zdigits2 (Zpos my)) in *.
    pose proof (Z.div_mod N (Zpos my) ltac:(lia)) as Ediv. fold q in Ediv.
    pose proof (Z.mod_pos_bound N (Zpos my) ltac:(lia)) as Bmod.
    (* [N] has [dx + s] digits *)
    assert (HN1 : 2 ^ (dx - 1 + s) <= N).
    { subst N. rewrite Z.pow_add_r by lia. apply Z.mul_le_mono_nonneg_r; lia. }
    destruct (Z.eq_dec q 0) as [Hq0 | Hq0].
    - (* the quotient is below one: the exponent is the minimal one *)
      rewrite Hq0. simpl (Zdigits2 0).
      assert (HlowN : N < Zpos my) by lia.
      assert (Hnot : ~ (53 - dx + dy <= s)).
      { intros Hge.
        assert (2 ^ (52 + dy) <= 2 ^ (dx - 1 + s))
          by (apply Z.pow_le_mono_r; lia).
        assert (2 ^ dy <= 2 ^ (52 + dy)) by (apply Z.pow_le_mono_r; lia).
        lia. }
      subst s e'. unfold div_exp, fexp64 in *. fold dx dy in Hnot |- *. lia.
    - assert (Hdq : dx + s - dy <= Zdigits2 q).
      { destruct (Z_lt_le_dec (Zdigits2 q) (dx + s - dy)) as [Hlt | Hge]; [| lia].
        exfalso.
        pose proof (Zdigits2_bounds q ltac:(lia)) as [_ Bq].
        pose proof (Zdigits2_pos q ltac:(lia)) as Hdq.
        assert (H1 : 2 ^ Zdigits2 q <= 2 ^ (dx + s - dy - 1))
          by (apply Z.pow_le_mono_r; lia).
        assert (H2 : 2 ^ (dx - 1 + s) = 2 ^ (dx + s - dy - 1) * 2 ^ dy)
          by (rewrite <- Z.pow_add_r by lia; f_equal; lia).
        assert (H3 : (q + 1) * Zpos my <= 2 ^ (dx + s - dy - 1) * 2 ^ dy).
        { apply Z.mul_le_mono_nonneg; lia. }
        lia. }
      subst s e'. unfold div_exp, fexp64 in *. fold dx dy in Hdq |- *. lia. }
  split; [| split].
  - unfold SFdiv, SFdiv_core_binary. cbn [xorb].
    rewrite !fexp_fexp64. fold (div_exp mx ex my ey). fold e'. fold s.
    assert (Hm' : match s with
                  | Z0 => Zpos mx
                  | Zpos _ => Z.shiftl (Zpos mx) s
                  | Zneg _ => 0
                  end = N).
    { subst N. destruct s as [| p | p] eqn:Es; try lia.
      now rewrite Z.shiftl_mul_pow2 by lia. }
    rewrite Hm'.
    pose proof (eq_refl : N / Zpos my = fst (Z.div_eucl N (Zpos my))) as Eq1.
    pose proof (eq_refl : N mod Zpos my = snd (Z.div_eucl N (Zpos my))) as Eq2.
    destruct (Z.div_eucl N (Zpos my)) as [q' r']. cbn [fst snd] in Eq1, Eq2.
    fold q in Eq1. subst q' r'.
    rewrite round_aux_spec by trivial. now rewrite Hcode.
  - subst k. apply kappa_nonneg; lia.
  - now rewrite Hk4.
Qed.

(** The order of two positive floats is the order of their mantissas
    brought to a common exponent. *)
Lemma leb_scaled (mx : positive) (ex : Z) (my : positive) (ey c : Z) :
  canonical mx ex -> canonical my ey ->
  SFleb (S754_finite false mx ex) (S754_finite false my ey) = true ->
  c <= ex -> c <= ey ->
  Zpos mx * 2 ^ (ex - c) <= Zpos my * 2 ^ (ey - c).
Proof.
  intros Hx Hy Hle Hcx Hcy.
  destruct (canonical_bounds _ _ Hx) as (Bx & Ex & _).
  destruct (canonical_bounds _ _ Hy) as (_ & _ & By).
  assert (Hp52 : 2 ^ 52 = 4503599627370496) by reflexivity.
  assert (Hp53 : 2 ^ 53 = 9007199254740992) by reflexivity.
  assert (Ha : 0 < 2 ^ (ex - c)) by (apply Z.pow_pos_nonneg; lia).
  unfold SFleb, SFcompare in Hle.
  destruct (Z.compare_spec ex ey) as [He | He | He]; try discriminate.
  - subst ey.
    change (Pos.compare_cont Eq mx my) with (Pos.compare mx my) in Hle.
    assert (Zpos mx <= Zpos my).
    { destruct (Pos.compare_spec mx my); try discriminate; lia. }
    apply Z.mul_le_mono_nonneg_r; lia.
  - specialize (By ltac:(lia)).
    replace (ey - c) with ((ex - c) + (ey - ex)) by lia.
    rewrite Z.pow_add_r by lia.
    assert (Hb : 2 ^ 1 <= 2 ^ (ey - ex)) by (apply Z.pow_le_mono_r; lia).
    change (2 ^ 1) with 2 in Hb.
    set (a := 2 ^ (ex - c)) in *. set (b := 2 ^ (ey - ex)) in *.
    rewrite Hp53 in Bx. rewrite Hp52 in By.
    assert (H1 : Zpos mx * a <= 9007199254740992 * a)
      by (apply Z.mul_le_mono_nonneg_r; lia).
    assert (H2 : 4503599627370496 * (a * 2) <= Zpos my * (a * b)).
    { apply Z.mul_le_mono_nonneg; try lia.
      apply Z.mul_le_mono_nonneg_l; lia. }
    lia.
Qed.

Lemma mul_mono_finite (mx1 : positive) (ex1 : Z) (my1 : positive) (ey1 : Z)
                      (mx2 : positive) (ex2 : Z) (my2 : positive) (ey2 : Z) :
  canonical mx1 ex1 -> canonical my1 ey1 ->
  canonical mx2 ex2 -> canonical my2 ey2 ->
  SFleb (S754_finite false mx1 ex1) (S754_finite false mx2 ex2) = true ->
  SFleb (S754_finite false my1 ey1) (S754_finite false my2 ey2) = true ->
  SFleb (SFmul 53 1024 (S754_finite false mx1 ex1) (S754_finite false my1 ey1))
        (SFmul 53 1024 (S754_finite false mx2 ex2) (S754_finite false my2 ey2)) = true.
Proof.
  intros Cx1 Cy1 Cx2 Cy2 Hx Hy.
  destruct (mul_spec mx1 ex1 my1 ey1 Cx1 Cy1) as [-> P1].
  destruct (mul_spec mx2 ex2 my2 ey2 Cx2 Cy2) as [-> P2].
  set (ca := Z.min ex1 ex2). set (cb := Z.min ey1 ey2).
  pose proof (leb_scaled _ _ _ _ ca Cx1 Cx2 Hx ltac:(subst ca; lia) ltac:(subst ca; lia)) as HA.
  pose proof (leb_scaled _ _ _ _ cb Cy1 Cy2 Hy ltac:(subst cb; lia) ltac:(subst cb; lia)) as HB.
  set (A1 := Zpos mx1 * 2 ^ (ex1 - ca)) in *. set (A2 := Zpos mx2 * 2 ^ (ex2 - ca)) in *.
  set (B1 := Zpos my1 * 2 ^ (ey1 - cb)) in *. set (B2 := Zpos my2 * 2 ^ (ey2 - cb)) in *.
  assert (HA1 : 0 < A1) by (subst A1; apply Z.mul_pos_pos; [lia | apply Z.pow_pos_nonneg; subst ca; lia]).
  assert (HB1 : 0 < B1) by (subst B1; apply Z.mul_pos_pos; [lia | apply Z.pow_pos_nonneg; subst cb; lia]).
  assert (Hle : A1 * B1 <= A2 * B2) by (apply Z.mul_le_mono_nonneg; lia).
  assert (E1 : 4 * (Zpos mx1 * Zpos my1) =
               shift_code (ex1 + ey1 - (ca + cb)) (4 * (A1 * B1))).
  { replace (A1 * B1) with ((Zpos mx1 * Zpos my1) * 2 ^ (ex1 + ey1 - (ca + cb))).
    - rewrite shift_code_exact; [reflexivity | subst ca cb; lia].
    - subst A1 B1. replace (ex1 + ey1 - (ca + cb)) with ((ex1 - ca) + (ey1 - cb)) by lia.
      rewrite Z.pow_add_r by (subst ca cb; lia). ring. }
  assert (E2 : 4 * (Zpos mx2 * Zpos my2) =
               shift_code (ex2 + ey2 - (ca + cb)) (4 * (A2 * B2))).
  { replace (A2 * B2) with ((Zpos mx2 * Zpos my2) * 2 ^ (ex2 + ey2 - (ca + cb))).
    - rewrite shift_code_exact; [reflexivity | subst ca cb; lia].
    - subst A2 B2. replace (ex2 + ey2 - (ca + cb)) with ((ex2 - ca) + (ey2 - cb)) by lia.
      rewrite Z.pow_add_r by (subst ca cb; lia). ring. }
  rewrite E1 in P1 |- *. rewrite E2 in P2 |- *.
  replace (ex1 + ey1) with ((ca + cb) + (ex1 + ey1 - (ca + cb))) in P1 |- * by lia.
  replace (ex2 + ey2) with ((ca + cb) + (ex2 + ey2 - (ca + cb))) in P2 |- * by lia.
  replace (ca + cb + (ex1 + ey1 - (ca + cb)) - (ca + cb)) with (ex1 + ey1 - (ca + cb)) in * by lia.
  replace (ca + cb + (ex2 + ey2 - (ca + cb)) - (ca + cb)) with (ex2 + ey2 - (ca + cb)) in * by lia.
  destruct (round_code_preshift (4 * (A1 * B1)) (ca + cb) (ex1 + ey1 - (ca + cb))
              ltac:(lia) ltac:(subst ca cb; lia) P1) as [-> Q1].
  destruct (round_code_preshift (4 * (A2 * B2)) (ca + cb) (ex2 + ey2 - (ca + cb))
              ltac:(lia) ltac:(subst ca cb; lia) P2) as [-> Q2].
  apply round_code_mono; trivial. lia.
Qed.

Lemma div_mono_finite (mx1 : positive) (ex1 : Z) (mx2 : positive) (ex2 : Z)
                      (my : positive) (ey : Z) :
  canonical mx1 ex1 -> canonical mx2 ex2 ->
  SFleb (S754_finite false mx1 ex1) (S754_finite false mx2 ex2) = true ->
  SFleb (SFdiv 53 1024 (S754_finite false mx1 ex1) (S754_finite false my ey))
        (SFdiv 53 1024 (S754_finite false mx2 ex2) (S754_finite false my ey)) = true.
Proof.
  intros Cx1 Cx2 Hx.
  destruct (div_spec mx1 ex1 my ey) as (-> & K1 & P1).
  destruct (div_spec mx2 ex2 my ey) as (-> & K2 & P2).
  set (e1 := div_exp mx1 ex1 my ey) in *. set (e2 := div_exp mx2 ex2 my ey) in *.
  assert (Hs1 : 0 <= ex1 - ey - e1) by (subst e1; unfold div_exp; lia).
  assert (Hs2 : 0 <= ex2 - ey - e2) by (subst e2; unfold div_exp; lia).
  set (e0 := Z.min e1 e2).
  assert (Hj1 : 0 <= e1 - e0) by (subst e0; lia).
  assert (Hj2 : 0 <= e2 - e0) by (subst e0; lia).
  pose proof (leb_scaled _ _ _ _ (ey + e0) Cx1 Cx2 Hx ltac:(lia) ltac:(lia)) as HN.
  set (N1 := Zpos mx1 * 2 ^ (ex1 - (ey + e0))) in *.
  set (N2 := Zpos mx2 * 2 ^ (ex2 - (ey + e0))) in *.
  assert (HN1 : 0 <= N1)
    by (subst N1; apply Z.mul_nonneg_nonneg; [lia | apply Z.pow_nonneg; lia]).
  assert (E1 : kappa (2 * (Zpos mx1 * 2 ^ (ex1 - ey - e1))) (Zpos my) =
               shift_code (e1 - e0) (kappa (2 * N1) (Zpos my))).
  { replace (2 * N1) with (2 * (Zpos mx1 * 2 ^ (ex1 - ey - e1)) * 2 ^ (e1 - e0)).
    - now rewrite shift_code_kappa by lia.
    - subst N1. replace (ex1 - (ey + e0)) with ((ex1 - ey - e1) + (e1 - e0)) by lia.
      rewrite Z.pow_add_r by lia. ring. }
  assert (E2 : kappa (2 * (Zpos mx2 * 2 ^ (ex2 - ey - e2))) (Zpos my) =
               shift_code (e2 - e0) (kappa (2 * N2) (Zpos my))).
  { replace (2 * N2) with (2 * (Zpos mx2 * 2 ^ (ex2 - ey - e2)) * 2 ^ (e2 - e0)).
    - now rewrite shift_code_kappa by lia.
    - subst N2. replace (ex2 - (ey + e0)) with ((ex2 - ey - e2) + (e2 - e0)) by lia.
      rewrite Z.pow_add_r by lia. ring. }
  rewrite E1 in P1 |- *. rewrite E2 in P2 |- *.
  assert (Hk1 : 0 <= kappa (2 * N1) (Zpos my)) by (apply kappa_nonneg; lia).
  assert (Hk2 : 0 <= kappa (2 * N2) (Zpos my)) by (apply kappa_nonneg; lia).
  destruct (round_code_rebase _ e0 e1 Hk1 ltac:(lia) P1) as [-> Q1].
  destruct (round_code_rebase _ e0 e2 Hk2 ltac:(lia) P2) as [-> Q2].
  apply round_code_mono; trivial. split; [exact Hk1 |].
  apply kappa_mono; lia.
Qed.

(** *** Finite non-negative floats *)

(** A rounded value is a well-formed non-negative float. *)
Lemma round_code_class (k e : Z) :
  0 <= k -> e <= fexp64 (Zdigits2 (k / 4) + e) ->
  valid_binary 53 1024 (round_code k e) = true /\ nonneg (round_code k e) = true.
Proof.
  intros Hk He.
  destruct (shifted_bounds k e Hk He) as (Hr & Hn & HE).
  unfold round_code.
  set (E := fexp64 (Zdigits2 (k / 4) + e)) in *.
  set (r := rne (shift_code (E - e) k)) in *.
  assert (Hp52 : 2 ^ 52 = 4503599627370496) by reflexivity.
  assert (Hp53 : 2 ^ 53 = 9007199254740992) by reflexivity.
  assert (Hmk : forall m x, 0 < m -> fexp64 (Zdigits2 m + x) = x ->
                valid_binary 53 1024 (pack m x) = true /\ nonneg (pack m x) = true).
  { intros m x Hm Hx. unfold pack. destruct (Z.leb_spec x 971); [| now split].
    split; [| reflexivity].
    unfold valid_binary, bounded, canonical_mantissa. rewrite fexp_fexp64.
    change (Zpos (digits2_pos (Z.to_pos m))) with (Zdigits2 (Zpos (Z.to_pos m))).
    rewrite Z2Pos.id by lia. rewrite Hx, Z.eqb_refl. simpl. now apply Z.leb_le. }
  unfold finish.
  destruct (Z.eqb_spec r 0); [now split |].
  destruct (Z.eqb_spec r (2 ^ 53)).
  - apply Hmk; [lia |]. change (Zdigits2 (2 ^ 52)) with 53. unfold fexp64. lia.
  - apply Hmk; [lia |].
    assert (Hd : Zdigits2 r <= 53) by (apply Zdigits2_lt_pow2; lia).
    assert (Hd' : -1074 < E -> Zdigits2 r = 53).
    { intros H. apply Zdigits2_unique; [lia |]. change (53 - 1) with 52.
      specialize (Hn H). lia. }
    unfold fexp64. lia.
Qed.

Lemma leb_zero_nonneg (s : bool) (x : spec_float) :
  nonneg x = true -> SFleb (S754_zero s) x = true.
Proof.
  destruct x as [? | [] | | [] ? ?]; try discriminate; reflexivity.
Qed.

Lemma mul_class (x y : spec_float) :
  valid_binary 53 1024 x = true -> valid_binary 53 1024 y = true ->
  pz x = true -> pz y = true ->
  valid_binary 53 1024 (SFmul 53 1024 x y) = true /\
  nonneg (SFmul 53 1024 x y) = true.
Proof.
  intros Vx Vy Px Py.
  destruct x as [sx | | | [] mx ex]; try discriminate;
  destruct y as [sy | | | [] my ey]; try discriminate.
  1-3: split; reflexivity.
  destruct (valid_canonical _ _ _ Vx) as [Cx _].
  destruct (valid_canonical _ _ _ Vy) as [Cy _].
  destruct (mul_spec mx ex my ey Cx Cy) as [-> P].
  apply round_code_class; [lia | exact P].
Qed.

Lemma mul_mono (x1 y1 x2 y2 : spec_float) :
  valid_binary 53 1024 x1 = true -> valid_binary 53 1024 y1 = true ->
  valid_binary 53 1024 x2 = true -> valid_binary 53 1024 y2 = true ->
  pz x1 = true -> pz y1 = true -> pz x2 = true -> pz y2 = true ->
  SFleb x1 x2 = true -> SFleb y1 y2 = true ->
  SFleb (SFmul 53 1024 x1 y1) (SFmul 53 1024 x2 y2) = true.
Proof.
  intros Vx1 Vy1 Vx2 Vy2 Px1 Py1 Px2 Py2 Hx Hy.
  destruct (mul_class x2 y2 Vx2 Vy2 Px2 Py2) as [_ Hn].
  destruct x1 as [sx1 | | | [] mx1 ex1]; try discriminate;
  destruct y1 as [sy1 | | | [] my1 ey1]; try discriminate.
  1-3: now apply leb_zero_nonneg.
  destruct x2 as [sx2 | | | [] mx2 ex2]; try discriminate;
  destruct y2 as [sy2 | | | [] my2 ey2]; try discriminate.
  destruct (valid_canonical _ _ _ Vx1) as [Cx1 _].
  destruct (valid_canonical _ _ _ Vy1) as [Cy1 _].
  destruct (valid_canonical _ _ _ Vx2) as [Cx2 _].
  destruct (valid_canonical _ _ _ Vy2) as [Cy2 _].
  now apply mul_mono_finite.
Qed.

Lemma div_class (x : spec_float) (my : positive) (ey : Z) :
  pz x = true ->
  valid_binary 53 1024 (SFdiv 53 1024 x (S754_finite false my ey)) = true /\
  nonneg (SFdiv 53 1024 x (S754_finite false my ey)) = true.
Proof.
  intros Px. destruct x as [sx | | | [] mx ex]; try discriminate.
  - split; reflexivity.
  - destruct (div_spec mx ex my ey) as (-> & K & P).
    now apply round_code_class.
Qed.

Lemma div_mono (x1 x2 : spec_float) (my : positive) (ey : Z) :
  valid_binary 53 1024 x1 = true -> valid_binary 53 1024 x2 = true ->
  pz x1 = true -> pz x2 = true ->
  SFleb x1 x2 = true ->
  SFleb (SFdiv 53 1024 x1 (S754_finite false my ey))
        (SFdiv 53 1024 x2 (S754_finite false my ey)) = true.
Proof.
  intros V1 V2 P1 P2 Hx.
  destruct (div_class x2 my ey P2) as [_ Hn].
  destruct x1 as [sx1 | | | [] mx1 ex1]; try discriminate.
  - now apply leb_zero_nonneg.
  - destruct x2 as [sx2 | | | [] mx2 ex2]; try discriminate.
    destruct (valid_canonical _ _ _ V1) as [C1 _].
    destruct (valid_canonical _ _ _ V2) as [C2 _].
    now apply div_mono_finite.
Qed.

Lemma leb_max_float (x : spec_float) :
  valid_binary 53 1024 x = true -> pz x = true -> SFleb x max_float = true.
Proof.
  intros V P. destruct x as [s | | | [] m e]; try discriminate; [reflexivity |].
  destruct (valid_canonical _ _ _ V) as [C He].
  destruct (canonical_bounds _ _ C) as (Bm & _ & _).
  assert (Hp53 : 2 ^ 53 = 9007199254740992) by reflexivity.
  unfold max_float.
  remember 9007199254740991%positive as M eqn:HM.
  assert (HZ : Zpos M = 9007199254740991) by (now subst M).
  clear HM. unfold SFleb, SFcompare.
  destruct (Z.compare_spec e 971); try reflexivity; try lia.
  rewrite Pos.compare_cont_spec. cbn [Pos.switch_Eq].
  destruct (Pos.compare_spec m M); try reflexivity; lia.
Qed.

(** A non-negative value below a finite one is finite. *)
Lemma nonneg_below_finite (x c : spec_float) :
  nonneg x = true -> pz c = true -> SFleb x c = true -> pz x = true.
Proof.
  intros Hx Hc Hle.
  destruct x as [? | [] | | [] ? ?]; try discriminate; try reflexivity.
  destruct c as [? | [] | | [] ? ?]; discriminate.
Qed.

(** *** The estimator *)

(** The distance scaled by the base rate, [(d / 100) * 7.0], is finite. *)
Lemma base_class (d : spec_float) :
  valid_binary 53 1024 d = true -> pz d = true ->
  valid_binary 53 1024 (SFmul 53 1024 (SFdiv 53 1024 d f100) f7) = true /\
  pz (SFmul 53 1024 (SFdiv 53 1024 d f100) f7) = true.
Proof.
  intros V P.
  assert (V7 : valid_binary 53 1024 f7 = true) by reflexivity.
  assert (P7 : pz f7 = true) by reflexivity.
  assert (L7 : SFleb f7 f7 = true) by reflexivity.
  assert (Vmax : valid_binary 53 1024 max_float = true) by reflexivity.
  assert (Pmax : pz max_float = true) by reflexivity.
  pose proof (leb_max_float d V P) as Hmax.
  set (c1 := SFdiv 53 1024 max_float f100).
  assert (Pc1 : pz c1 = true) by (vm_compute; reflexivity).
  assert (Vc1 : valid_binary 53 1024 c1 = true) by (vm_compute; reflexivity).
  assert (Pc2 : pz (SFmul 53 1024 c1 f7) = true) by (vm_compute; reflexivity).
  unfold f100 in *.
  destruct (div_class d 7036874417766400 (-46) P) as [Va Na].
  pose proof (div_mono d max_float 7036874417766400 (-46) V Vmax P Pmax Hmax) as Ha.
  fold c1 in Ha.
  set (a := SFdiv 53 1024 d (S754_finite false 7036874417766400 (-46))) in *.
  pose proof (nonneg_below_finite a c1 Na Pc1 Ha) as Pa.
  destruct (mul_class a f7 Va V7 Pa P7) as [Vb Nb].
  split; [exact Vb |].
  apply (nonneg_below_finite _ (SFmul 53 1024 c1 f7) Nb Pc2).
  apply mul_mono; trivial.
Qed.

Lemma base_mono (d1 d2 : spec_float) :
  valid_binary 53 1024 d1 = true -> valid_binary 53 1024 d2 = true ->
  pz d1 = true -> pz d2 = true -> SFleb d1 d2 = true ->
  SFleb (SFmul 53 1024 (SFdiv 53 1024 d1 f100) f7)
        (SFmul 53 1024 (SFdiv 53 1024 d2 f100) f7) = true.
Proof.
  intros V1 V2 P1 P2 H.
  assert (V7 : valid_binary 53 1024 f7 = true) by reflexivity.
  assert (P7 : pz f7 = true) by reflexivity.
  assert (L7 : SFleb f7 f7 = true) by reflexivity.
  assert (Vmax : valid_binary 53 1024 max_float = true) by reflexivity.
  assert (Pmax : pz max_float = true) by reflexivity.
  set (c1 := SFdiv 53 1024 max_float f100).
  assert (Pc1 : pz c1 = true) by (vm_compute; reflexivity).
  unfold f100 in *.
  destruct (div_class d1 7036874417766400 (-46) P1) as [Va1 Na1].
  destruct (div_class d2 7036874417766400 (-46) P2) as [Va2 Na2].
  pose proof (div_mono d1 d2 7036874417766400 (-46) V1 V2 P1 P2 H) as Ha.
  pose proof (div_mono d2 max_float 7036874417766400 (-46) V2 Vmax P2 Pmax
                (leb_max_float d2 V2 P2)) as Ha2.
  fold c1 in Ha2.
  set (a1 := SFdiv 53 1024 d1 _) in *. set (a2 := SFdiv 53 1024 d2 _) in *.
  pose proof (nonneg_below_finite a2 c1 Na2 Pc1 Ha2) as Pa2.
  assert (Pa1 : pz a1 = true).
  { destruct a1 as [? | [] | | [] ? ?]; try discriminate; try reflexivity.
    destruct a2 as [? | [] | | [] ? ?]; discriminate. }
  apply mul_mono; trivial.
Qed.

Lemma pz_upper (x y : spec_float) :
  SFleb (S754_zero false) x = true -> SFleb x y = true ->
  match y with S754_zero _ | S754_finite _ _ _ => true | _ => false end = true ->
  pz x = true /\ pz y = true.
Proof.
  intros H0 Hxy Hy.
  destruct x as [? | [] | | [] ? ?]; try discriminate;
    destruct y as [? | [] | | [] ? ?]; try discriminate; split; reflexivity.
Qed.

(** The estimator is monotone on finite non-negative inputs. *)
Lemma estimate_mono (d1 m1 d2 m2 : spec_float) :
  valid_binary 53 1024 d1 = true -> valid_binary 53 1024 m1 = true ->
  valid_binary 53 1024 d2 = true -> valid_binary 53 1024 m2 = true ->
  pz d1 = true -> pz m1 = true -> pz d2 = true -> pz m2 = true ->
  SFleb d1 d2 = true -> SFleb m1 m2 = true ->
  SFleb (SFmul 53 1024 (SFmul 53 1024 (SFdiv 53 1024 d1 f100) f7) m1)
        (SFmul 53 1024 (SFmul 53 1024 (SFdiv 53 1024 d2 f100) f7) m2) = true.
Proof.
  intros Vd1 Vm1 Vd2 Vm2 Pd1 Pm1 Pd2 Pm2 Hd Hm.
  destruct (base_class d1 Vd1 Pd1) as [Vb1 Pb1].
  destruct (base_class d2 Vd2 Pd2) as [Vb2 Pb2].
  apply mul_mono; trivial. now apply base_mono.
Qed.

End RoundFacts.

(** ** The selection loop *)

Section SelectLoop.
Import Float.

Lemma select_loop_snoc (seen : traffic_snapshot) (x : string * route_data)
                       (st : selection) :
  select_loop (seen ++ [x]) st = select_step (select_loop seen st) x.
Proof.
  unfold select_loop. now rewrite fold_left_app.
Qed.

Lemma select_step_eq (b : option string) (m : float) (x : string * route_data) :
  select_step (b, m) x =
    if ltb (consumption x) m then (Some (fst x), consumption x) else (b, m).
Proof.
  now destruct x.
Qed.

Lemma loop_inv_step (seen : traffic_snapshot) (st : selection)
                    (x : string * route_data) :
  loop_inv seen st -> loop_inv (seen ++ [x]) (select_step st x).
Proof.
  destruct st as [b m]. rewrite select_step_eq. unfold loop_inv.
  destruct x as [route data]. set (c := consumption (route, data)).
  intros [Hmin Hbest]. cbn [fst].
  destruct (ltb c m) eqn:Hlt.
  - (* the new entry is strictly better *)
    split.
    + intros e He. apply in_app_or in He as [He | [<- | []]].
      * destruct (ltb (consumption e) c) eqn:Hec; [| reflexivity].
        pose proof (Hmin e He) as Hc.
        rewrite (FloatOrder.ltb_trans _ _ _ Hec Hlt) in Hc. discriminate.
      * apply FloatOrder.ltb_irrefl.
    + exists (List.length seen), data. repeat split.
      * rewrite nth_error_app2 by lia. now rewrite Nat.sub_diag.
      * apply (FloatOrder.ltb_below_inf _ _ Hlt).
      * intros j e Hj Hnth. rewrite nth_error_app1 in Hnth by exact Hj.
        apply nth_error_In in Hnth.
        destruct (leb (consumption e) c) eqn:Hec; [| reflexivity].
        pose proof (Hmin e Hnth) as Hc.
        rewrite (FloatOrder.leb_ltb_trans _ _ _ Hec Hlt) in Hc. discriminate.
  - (* the state is kept *)
    split.
    + intros e He. apply in_app_or in He as [He | [<- | []]]; auto.
    + destruct b as [r |]; [| exact Hbest].
      destruct Hbest as (i & d & Hnth & Hm & Hinf & Hfirst).
      assert (Hi : (i < List.length seen)%nat)
        by (apply nth_error_Some; congruence).
      exists i, d. repeat split; trivial.
      * rewrite nth_error_app1; trivial.
      * intros j e Hj Hje. apply (Hfirst j e Hj).
        rewrite nth_error_app1 in Hje by lia. exact Hje.
Qed.

Lemma loop_inv_holds (s : traffic_snapshot) :
  loop_inv s (select_loop s (None, inf)).
Proof.
  induction s as [| x seen IH] using rev_ind.
  - unfold loop_inv, select_loop. simpl. split; [intros e [] | reflexivity].
  - rewrite select_loop_snoc. now apply loop_inv_step.
Qed.

(** The loop leaves [best_route] unset exactly when no entry is below the
    initial [float('inf')]. *)
Lemma select_loop_none (s : traffic_snapshot) (m : float) :
  select_loop s (None, inf) = (None, m) ->
  m = inf /\ forall e, In e s -> ltb (consumption e) inf = false.
Proof.
  intros H. pose proof (loop_inv_holds s) as Hinv. rewrite H in Hinv.
  destruct Hinv as [Hmin ->]. now split.
Qed.

Lemma select_loop_some (s : traffic_snapshot) :
  (exists e, In e s /\ ltb (consumption e) inf = true) ->
  exists r m, select_loop s (None, inf) = (Some r, m).
Proof.
  intros (e & He & Hlt).
  destruct (select_loop s (None, inf)) as [[r |] m] eqn:H; [now eauto |].
  apply select_loop_none in H as [_ H]. rewrite (H e He) in Hlt. discriminate.
Qed.

End SelectLoop.

(** ** Running the components *)

Lemma find_falsy (traffic_data : option traffic_snapshot) (out : stdout) :
  falsy_snapshot traffic_data = true ->
  find_most_efficient_route traffic_data out =
    (Returned (None, None),
     out ++ ["Error in finding route: Traffic data is not available."%string]).
Proof.
  intros H. unfold find_most_efficient_route, try_except, find_body.
  now rewrite H.
Qed.

Lemma find_truthy (traffic_data : option traffic_snapshot) (out : stdout) :
  falsy_snapshot traffic_data = false ->
  find_most_efficient_route traffic_data out =
    (Returned (fst (select_loop (items traffic_data) (None, Float.inf)),
               Some (snd (select_loop (items traffic_data) (None, Float.inf)))),
     out).
Proof.
  intros H. unfold find_most_efficient_route, try_except, find_body.
  rewrite H. now destruct (select_loop _ _).
Qed.

(** ** Rendering with two decimals *)





(** ** The components, case by case *)

(** The Traffic Source, by cases on its two draws. *)
Lemma fetch_eq (network_delay : Float.float) (choice : bool) (out : stdout) :
  fetch_real_time_traffic_data network_delay choice out =
    if Float.geb network_delay timeout_threshold
    then (Returned None,
          out ++ ["Error fetching traffic data: Network timeout."%string])
    else if choice
         then (Returned (Some MOCK_TRAFFIC_DATA), out)
         else (Returned None,
               out ++ ["Error fetching traffic data: Failed to fetch traffic data."%string]).
Proof.
  unfold fetch_real_time_traffic_data, try_except, fetch_body.
  destruct (Float.geb network_delay timeout_threshold); [| destruct choice];
    reflexivity.
Qed.

Lemma find_mock (out : stdout) :
  find_most_efficient_route (Some MOCK_TRAFFIC_DATA) out =
    (Returned (Some "route_2"%string, Some f0_84), out).
Proof.
  rewrite find_truthy by reflexivity.
  replace (select_loop (items (Some MOCK_TRAFFIC_DATA)) (None, Float.inf))
    with (Some "route_2"%string, f0_84) by (vm_compute; reflexivity).
  reflexivity.
Qed.

(** The driver, with its two calls exposed. *)
Lemma main_unfold (network_delay : Float.float) (choice : bool) (out : stdout) :
  main network_delay choice out =
    match fetch_real_time_traffic_data network_delay choice (out ++ [fetching_line]) with
    | (Returned traffic_data, out1) =>
        match find_most_efficient_route traffic_data (out1 ++ [calculating_line]) with
        | (Returned (best_route, fuel_consumption), out2) =>
            if truthy best_route
            then
              match fuel_consumption with
              | Some c =>
                  (Returned tt,
                   out2 ++ [success_line (str_of best_route) (format_2f c)])
              | None =>
                  (Raised (TypeError "unsupported format string passed to NoneType.__format__"),
                   out2)
              end
            else (Returned tt, out2 ++ [failure_line])
        | (Raised e, out2) => (Raised e, out2)
        end
    | (Raised e, out1) => (Raised e, out1)
    end.
Proof.
  unfold main, bind, print. cbn [fst snd].
  destruct (fetch_real_time_traffic_data _ _ _) as [[td | e] out1]; trivial.
  destruct (find_most_efficient_route _ _) as [[[b f] | e] out2]; trivial.
  destruct (truthy b); trivial. now destruct f.
Qed.

(** The only three runs of the program. *)
Lemma main_runs (network_delay : Float.float) (choice : bool) :
  main network_delay choice [] =
    (Returned tt,
     [fetching_line; calculating_line;
      success_line "route_2" "0.84"]) \/
  main network_delay choice [] =
    (Returned tt,
     [fetching_line;
      "Error fetching traffic data: Network timeout."%string;
      calculating_line;
      "Error in finding route: Traffic data is not available."%string;
      failure_line]) \/
  main network_delay choice [] =
    (Returned tt,
     [fetching_line;
      "Error fetching traffic data: Failed to fetch traffic data."%string;
      calculating_line;
      "Error in finding route: Traffic data is not available."%string;
      failure_line]).
Proof.
  rewrite main_unfold, fetch_eq.
  destruct (Float.geb network_delay timeout_threshold); [| destruct choice].
  - right; left. now rewrite find_falsy.
  - left. now rewrite find_mock.
  - right; right. now rewrite find_falsy.
Qed.

(** The shapes of the selector's result. It returns normally for every
    input; the pair is [(None, None)] only for an absent or empty snapshot,
    it has both components only when some entry has a consumption below
    [float('inf')], and it is [(None, inf)] only for a non-empty snapshot
    without such an entry. An identifier without a consumption is never
    returned. *)
Lemma find_most_efficient_route_result_shape
        (traffic_data : option traffic_snapshot) (out : stdout) :
  match fst (find_most_efficient_route traffic_data out) with
  | Returned (None, None) => falsy_snapshot traffic_data = true
  | Returned (Some _, Some _) =>
      exists e, In e (items traffic_data) /\
                Float.ltb (consumption e) Float.inf = true
  | Returned (None, Some c) =>
      c = Float.inf /\ falsy_snapshot traffic_data = false /\
      forall e, In e (items traffic_data) ->
                Float.ltb (consumption e) Float.inf = false
  | Returned (Some _, None) => False
  | Raised _ => False
  end.
Proof.
  destruct (falsy_snapshot traffic_data) eqn:Hf.
  - now rewrite (find_falsy _ out Hf).
  - rewrite (find_truthy _ out Hf). cbn [fst].
    pose proof (loop_inv_holds (items traffic_data)) as Hinv.
    destruct (select_loop (items traffic_data) (None, Float.inf))
      as [[r |] m] eqn:Hloop; cbn [fst snd].
    + destruct Hinv as (_ & i & d & Hnth & -> & Hinf & _).
      exists (r, d). split; [now apply nth_error_In in Hnth | exact Hinf].
    + apply select_loop_none in Hloop as [-> Hall]. auto.
Qed.

(** * Part IV: the properties *)

(** ** Route Selector *)

(** C1 (amended). For every snapshot holding at least one entry whose
    consumption is below [float('inf')], [find_most_efficient_route] returns
    the identifier and the consumption of an entry such that no entry has a
    strictly smaller consumption, the returned consumption is less than or
    equal to every consumption that is not a NaN, and no entry earlier in
    insertion order has a consumption less than or equal to it: the first
    minimal entry. Nothing is printed. *)
Theorem find_most_efficient_route_first_minimum
        (s : traffic_snapshot) (out : stdout) :
  (exists e, In e s /\ Float.ltb (consumption e) Float.inf = true) ->
  exists i r d,
    nth_error s i = Some (r, d) /\
    find_most_efficient_route (Some s) out =
      (Returned (Some r, Some (consumption (r, d))), out) /\
    (forall e, In e s ->
       Float.ltb (consumption e) (consumption (r, d)) = false) /\
    (forall e, In e s -> Float.is_nan (consumption e) = false ->
       Float.leb (consumption (r, d)) (consumption e) = true) /\
    (forall j e, (j < i)%nat -> nth_error s j = Some e ->
       Float.leb (consumption e) (consumption (r, d)) = false).
Proof.
  intros Hex.
  assert (Hne : falsy_snapshot (Some s) = false).
  { destruct Hex as (e & He & _). now destruct s. }
  rewrite (find_truthy _ out Hne). cbn [items].
  destruct (select_loop_some s Hex) as (r & m & Hloop).
  pose proof (loop_inv_holds s) as Hinv. rewrite Hloop in Hinv.
  destruct Hinv as (Hmin & i & d & Hnth & -> & Hinf & Hfirst).
  exists i, r, d. rewrite Hloop. cbn [fst snd].
  repeat split; trivial.
  intros e He Hnan. apply FloatOrder.not_ltb_leb; auto.
  apply (FloatOrder.ltb_not_nan _ _ Hinf).
Qed.

(** C1 (witness). The mock snapshot has an entry below [float('inf')]. *)
Lemma find_most_efficient_route_first_minimum_witness :
  exists i r d,
    nth_error MOCK_TRAFFIC_DATA i = Some (r, d) /\
    find_most_efficient_route (Some MOCK_TRAFFIC_DATA) [] =
      (Returned (Some r, Some (consumption (r, d))), []) /\
    (forall e, In e MOCK_TRAFFIC_DATA ->
       Float.ltb (consumption e) (consumption (r, d)) = false) /\
    (forall e, In e MOCK_TRAFFIC_DATA -> Float.is_nan (consumption e) = false ->
       Float.leb (consumption (r, d)) (consumption e) = true) /\
    (forall j e, (j < i)%nat -> nth_error MOCK_TRAFFIC_DATA j = Some e ->
       Float.leb (consumption e) (consumption (r, d)) = false).
Proof.
  apply (find_most_efficient_route_first_minimum MOCK_TRAFFIC_DATA []).
  exists ("route_1"%string, mk_route_data (Float.of_Z 10) (Float.lit 12 1)).
  split; [left; reflexivity | vm_compute; reflexivity].
Defined.

(** C1 (counterexample). Two snapshots that are not empty. In the first
    the consumption of [route_1] is a NaN: [route_2] is returned, and its
    consumption is not less than or equal to the consumption of every
    entry. In the second the only consumption overflows to [float('inf')],
    which is not below the initial minimum: no identifier is returned. *)
Lemma find_most_efficient_route_not_minimum :
  (find_most_efficient_route (Some nan_snapshot) [] =
     (Returned (Some "route_2"%string, Some f0_7_up), []) /\
   exists e, In e nan_snapshot /\
             Float.leb f0_7_up (consumption e) = false) /\
  (overflow_snapshot <> [] /\
   find_most_efficient_route (Some overflow_snapshot) [] =
     (Returned (None, Some Float.inf), [])).
Proof.
  split; split.
  - vm_compute. reflexivity.
  - exists ("route_1"%string, mk_route_data Float.nan (Float.lit 10 1)).
    split; [left; reflexivity | vm_compute; reflexivity].
  - discriminate.
  - vm_compute. reflexivity.
Qed.

(** C3. For an absent snapshot ([None]) and for the empty snapshot the
    selector returns normally with the pair [(None, None)], after printing
    its diagnostic line: the [ValueError] it raises is caught inside. *)
Theorem find_most_efficient_route_no_data (out : stdout) :
  find_most_efficient_route None out =
    (Returned (None, None),
     out ++ ["Error in finding route: Traffic data is not available."%string]) /\
  find_most_efficient_route (Some []) out =
    (Returned (None, None),
     out ++ ["Error in finding route: Traffic data is not available."%string]) /\
  find_body None out = (Raised (ValueError "Traffic data is not available."), out) /\
  find_body (Some []) out = (Raised (ValueError "Traffic data is not available."), out).
Proof.
  repeat split; now apply find_falsy.
Qed.

(** C10 (failing input). On the snapshot whose only route has distance
    [1e308] and multiplier [1e308] the selector returns the pair
    [(None, inf)]: the identifier is absent and the consumption is
    present. The loop never replaces its initial state, because the
    consumption is not strictly below [float('inf')]. *)
Theorem find_most_efficient_route_half_absent :
  find_most_efficient_route (Some overflow_snapshot) [] =
    (Returned (None, Some Float.inf), []) /\
  consumption ("route_1"%string, mk_route_data f1e308 f1e308) = Float.inf.
Proof.
  split; vm_compute; reflexivity.
Qed.

(** ** Consumption Estimator *)

(** C5 (amended). [calculate_fuel_efficiency 0 m] equals zero for every
    finite multiplier [m], and the estimator is monotonically
    non-decreasing in both arguments on finite non-negative inputs: for all
    binary64 values with [0 <= d1 <= d2], [0 <= m1 <= m2] and [d2], [m2]
    finite, [calculate_fuel_efficiency d1 m1 <= calculate_fuel_efficiency
    d2 m2]; the larger result may be [float('inf')]. [Float.valid] says
    that a value of the model is a binary64 number. *)
Theorem calculate_fuel_efficiency_zero_and_monotone
        (m d1 m1 d2 m2 : Float.float) :
  Float.is_finite m = true ->
  Float.valid d1 = true -> Float.valid m1 = true ->
  Float.valid d2 = true -> Float.valid m2 = true ->
  Float.is_finite d2 = true -> Float.is_finite m2 = true ->
  Float.leb Float.zero d1 = true -> Float.leb d1 d2 = true ->
  Float.leb Float.zero m1 = true -> Float.leb m1 m2 = true ->
  Float.eqb (calculate_fuel_efficiency (Float.of_Z 0) m) (Float.of_Z 0) = true /\
  Float.leb (calculate_fuel_efficiency d1 m1) (calculate_fuel_efficiency d2 m2) = true.
Proof.
  intros Fm Vd1 Vm1 Vd2 Vm2 Fd2 Fm2 Zd1 Hd Zm1 Hm.
  split.
  - destruct m as [? | ? | | ? ? ?]; try discriminate; reflexivity.
  - destruct (RoundFacts.pz_upper d1 d2 Zd1 Hd Fd2) as [Pd1 Pd2].
    destruct (RoundFacts.pz_upper m1 m2 Zm1 Hm Fm2) as [Pm1 Pm2].
    exact (RoundFacts.estimate_mono d1 m1 d2 m2 Vd1 Vm1 Vd2 Vm2
             Pd1 Pm1 Pd2 Pm2 Hd Hm).
Qed.

(** C5 (witness). [10 <= 12] and [1.0 <= 1.5], with the multiplier [1.2]
    for the first part. *)
Lemma calculate_fuel_efficiency_zero_and_monotone_witness :
  Float.eqb (calculate_fuel_efficiency (Float.of_Z 0) (Float.lit 12 1))
            (Float.of_Z 0) = true /\
  Float.leb (calculate_fuel_efficiency (Float.of_Z 10) (Float.lit 10 1))
            (calculate_fuel_efficiency (Float.of_Z 12) (Float.lit 15 1)) = true.
Proof.
  apply (calculate_fuel_efficiency_zero_and_monotone
           (Float.lit 12 1) (Float.of_Z 10) (Float.lit 10 1)
           (Float.of_Z 12) (Float.lit 15 1));
    vm_compute; reflexivity.
Defined.

(** C5 (counterexample). [float('inf')] is a non-negative multiplier, and
    [calculate_fuel_efficiency 0 inf] is a NaN: it is not equal to zero and
    it is not less than or equal to itself. *)
Lemma calculate_fuel_efficiency_zero_times_inf :
  Float.leb (Float.of_Z 0) Float.inf = true /\
  calculate_fuel_efficiency (Float.of_Z 0) Float.inf = Float.nan /\
  Float.eqb (calculate_fuel_efficiency (Float.of_Z 0) Float.inf)
            (Float.of_Z 0) = false /\
  Float.leb (calculate_fuel_efficiency (Float.of_Z 0) Float.inf)
            (calculate_fuel_efficiency (Float.of_Z 0) Float.inf) = false.
Proof.
  repeat split; vm_compute; reflexivity.
Qed.

(** ** The mock data *)

(** C4 (amended). On the mock snapshot the three consumptions are, in
    order, [0.8400000000000001], [0.84] and [0.8400000000000001]: the second
    is the binary64 value of the literal [0.84] and is strictly below the
    other two. Each of them renders as ["0.84"] with two decimals, and the
    selector returns [route_2] with consumption [0.84]. *)
Theorem mock_consumptions :
  map consumption MOCK_TRAFFIC_DATA = [f0_84_up; f0_84; f0_84_up] /\
  f0_84 = Float.lit 84 2 /\
  Float.ltb f0_84 f0_84_up = true /\
  map format_2f (map consumption MOCK_TRAFFIC_DATA)
    = ["0.84"%string; "0.84"%string; "0.84"%string] /\
  find_most_efficient_route (Some MOCK_TRAFFIC_DATA) [] =
    (Returned (Some "route_2"%string, Some f0_84), []).
Proof.
  repeat split; vm_compute; reflexivity.
Qed.

(** C4 (counterexample). The three consumptions are not all equal to
    [0.84], and the selector does not return [route_1]. *)
Lemma mock_consumptions_not_equal :
  ~ (Forall (fun e => Float.eqb (consumption e) (Float.lit 84 2) = true)
            MOCK_TRAFFIC_DATA /\
     returned (find_most_efficient_route (Some MOCK_TRAFFIC_DATA)) =
       Returned (Some "route_1"%string, Some (Float.lit 84 2))).
Proof.
  intros [_ H]. vm_compute in H. discriminate H.
Qed.

(** ** Traffic Source *)

(** C6 (amended). The [try] block of the Traffic Source raises its
    [ConnectionError] ("Network timeout.") exactly when the simulated delay
    is greater than or equal to the threshold [0.15]; for every other delay,
    a NaN included, the timeout branch is not taken. *)
Theorem fetch_timeout_iff (network_delay : Float.float) (choice : bool)
                          (out : stdout) :
  fetch_body network_delay choice out =
    (Raised (ConnectionError "Network timeout."), out)
  <-> Float.geb network_delay timeout_threshold = true.
Proof.
  unfold fetch_body.
  destruct (Float.geb network_delay timeout_threshold); [now split |].
  split; [| discriminate]. now destruct choice.
Qed.

(** C6 (counterexample). A delay equal to the threshold does not exceed it,
    and the timeout is raised all the same. *)
Lemma fetch_timeout_at_threshold :
  Float.ltb timeout_threshold timeout_threshold = false /\
  fetch_body timeout_threshold true [] =
    (Raised (ConnectionError "Network timeout."), []).
Proof.
  split; vm_compute; reflexivity.
Qed.

(** The delay of the counterexample can be drawn: [random.uniform(0, 0.2)]
    returns exactly the threshold [0.15] when [random()] returns
    [6755399441055743 / 2^53]. *)
Lemma random_uniform_reaches_threshold :
  random_uniform (Float.of_Z 0) (Float.lit 2 1) random_draw = timeout_threshold /\
  Float.ltb random_draw (Float.of_Z 1) = true.
Proof.
  split; vm_compute; reflexivity.
Qed.

(** C7. For every pair of random draws: if the [try] block fails, it fails
    with one of the two failure kinds, the failure is caught, one diagnostic
    line made of the fixed prefix and the message of the failure is printed,
    and the caller receives [None]; if it succeeds, nothing is printed and
    the caller receives the whole mock snapshot. The Traffic Source never
    ends by raising. *)
Theorem fetch_real_time_traffic_data_total
        (network_delay : Float.float) (choice : bool) (out : stdout) :
  match fst (fetch_body network_delay choice out) with
  | Raised e =>
      (e = ConnectionError "Network timeout." \/
       e = ValueError "Failed to fetch traffic data.") /\
      fetch_real_time_traffic_data network_delay choice out =
        (Returned None, out ++ [("Error fetching traffic data: " ++ exn_str e)%string])
  | Returned v =>
      v = Some MOCK_TRAFFIC_DATA /\
      fetch_real_time_traffic_data network_delay choice out =
        (Returned (Some MOCK_TRAFFIC_DATA), out)
  end.
Proof.
  unfold fetch_real_time_traffic_data, try_except, fetch_body.
  destruct (Float.geb network_delay timeout_threshold); [| destruct choice];
    cbn; auto.
Qed.

(** ** Driver *)

(** C8. Whatever the two random draws are, the program ends with status 0:
    [main] returns normally. Neither component ever ends by raising, for
    any draw and any snapshot, so the driver only sees returned values. *)
Theorem program_exit_status (network_delay : Float.float) (choice : bool) :
  fst (run_program network_delay choice) = 0 /\
  (forall out, exists v out',
     fetch_real_time_traffic_data network_delay choice out = (Returned v, out')) /\
  (forall traffic_data out, exists v out',
     find_most_efficient_route traffic_data out = (Returned v, out')).
Proof.
  split; [| split].
  - unfold run_program.
    destruct (main_runs network_delay choice) as [-> | [-> | ->]]; reflexivity.
  - intros out. rewrite fetch_eq.
    destruct (Float.geb network_delay timeout_threshold); [| destruct choice];
      eauto.
  - intros traffic_data out. destruct (falsy_snapshot traffic_data) eqn:Hf.
    + rewrite (find_falsy _ _ Hf). eauto.
    + rewrite (find_truthy _ _ Hf). eauto.
Qed.


(** * Part V: further properties of the components *)

(** ** More on the order of floats *)

Module FloatOrderMore.
Import Float.

Lemma ltb_leb (x y : float) : ltb x y = true -> leb x y = true.
Proof.
  unfold ltb, leb, SFltb, SFleb. destruct (SFcompare x y) as [[] |]; trivial.
Qed.

Lemma leb_antisym (x y : float) :
  leb x y = true -> leb y x = true -> eqb x y = true.
Proof.
  unfold leb, eqb, SFleb, SFeqb. intros Hxy Hyx.
  FloatOrder.by_cases x; FloatOrder.by_cases y; FloatOrder.cmp_cases.
Qed.

Lemma leb_refl (x : float) : is_nan x = false -> leb x x = true.
Proof.
  unfold leb, SFleb. intros Hx.
  FloatOrder.by_cases x; FloatOrder.cmp_cases.
Qed.

Lemma not_below_inf (x y : float) : ltb x inf = false -> ltb x y = false.
Proof.
  intros H. destruct (ltb x y) eqn:E; [| reflexivity].
  now rewrite (FloatOrder.ltb_below_inf _ _ E) in H.
Qed.

End FloatOrderMore.

(** ** More on the selection loop *)

(** The loop leaves its state alone on entries that do not beat it. *)
Lemma select_loop_keep (t : traffic_snapshot) (b : option string)
                       (m : Float.float) :
  (forall e, In e t -> Float.ltb (consumption e) m = false) ->
  select_loop t (b, m) = (b, m).
Proof.
  induction t as [| x t IH]; intros H; [reflexivity |].
  unfold select_loop. cbn [fold_left]. rewrite select_step_eq.
  rewrite (H x (or_introl eq_refl)).
  apply IH. intros e He. apply H. now right.
Qed.

Lemma select_loop_app (s t : traffic_snapshot) (st : selection) :
  select_loop (s ++ t) st = select_loop t (select_loop s st).
Proof.
  unfold select_loop. apply fold_left_app.
Qed.

(** Entries that are not below [float('inf')] never change the state. *)
Lemma select_loop_filter (s : traffic_snapshot) (st : selection) :
  select_loop (filter below_inf s) st = select_loop s st.
Proof.
  revert st. induction s as [| x s IH]; intros [b m]; [reflexivity |].
  cbn [filter]. destruct (below_inf x) eqn:Hx.
  - unfold select_loop. cbn [fold_left]. apply IH.
  - unfold select_loop at 2. cbn [fold_left]. rewrite select_step_eq.
    unfold below_inf in Hx.
    rewrite (FloatOrderMore.not_below_inf _ m Hx). apply IH.
Qed.

(** The minimum kept by the loop is never a NaN. *)
Lemma select_loop_not_nan (s : traffic_snapshot) :
  Float.is_nan (snd (select_loop s (None, Float.inf))) = false.
Proof.
  pose proof (loop_inv_holds s) as Hinv.
  destruct (select_loop s (None, Float.inf)) as [[r |] m]; cbn [snd].
  - destruct Hinv as (_ & i & d & _ & _ & Hinf & _).
    apply (FloatOrder.ltb_not_nan _ _ Hinf).
  - destruct Hinv as [_ ->]. reflexivity.
Qed.

(** Going on with the loop never raises the minimum. *)
Lemma select_loop_le (t : traffic_snapshot) (b : option string)
                     (m : Float.float) :
  Float.is_nan m = false ->
  Float.leb (snd (select_loop t (b, m))) m = true.
Proof.
  revert b m. induction t as [| x t IH]; intros b m Hm.
  - now apply FloatOrderMore.leb_refl.
  - unfold select_loop. cbn [fold_left]. rewrite select_step_eq.
    destruct (Float.ltb (consumption x) m) eqn:Hlt.
    + apply FloatOrderMore.ltb_leb.
      apply (FloatOrder.leb_ltb_trans _ (consumption x)); [| exact Hlt].
      apply IH. apply (FloatOrder.ltb_not_nan _ _ Hlt).
    + now apply IH.
Qed.

(** With a selectable entry, the loop ends on an entry of the snapshot
    that no entry strictly beats. *)
Lemma select_loop_min (s : traffic_snapshot) :
  (exists e, In e s /\ below_inf e = true) ->
  exists r d,
    In (r, d) s /\
    select_loop s (None, Float.inf) = (Some r, consumption (r, d)) /\
    Float.ltb (consumption (r, d)) Float.inf = true /\
    (forall e, In e s ->
       Float.ltb (consumption e) (consumption (r, d)) = false).
Proof.
  intros Hex. destruct (select_loop_some s Hex) as (r & m & Hloop).
  pose proof (loop_inv_holds s) as Hinv. rewrite Hloop in Hinv.
  destruct Hinv as (Hmin & i & d & Hnth & -> & Hinf & _).
  exists r, d. repeat split; trivial. now apply nth_error_In in Hnth.
Qed.

Lemma find_eq_inv (s : traffic_snapshot) (out out' : stdout)
                  (b : option string) (m : Float.float) :
  find_most_efficient_route (Some s) out = (Returned (b, Some m), out') ->
  falsy_snapshot (Some s) = false /\
  select_loop s (None, Float.inf) = (b, m).
Proof.
  intros H. destruct (falsy_snapshot (Some s)) eqn:Hf.
  - rewrite (find_falsy _ _ Hf) in H. discriminate H.
  - split; [reflexivity |]. rewrite (find_truthy _ _ Hf) in H.
    cbn [items] in H. destruct (select_loop s (None, Float.inf)).
    cbn [fst snd] in H. congruence.
Qed.

Lemma falsy_app (s t : traffic_snapshot) :
  falsy_snapshot (Some s) = false -> falsy_snapshot (Some (s ++ t)) = false.
Proof.
  now destruct s.
Qed.

(** ** Route Selector: composition, order and ignored entries *)

(** X1. Routes added after a snapshot do not change the selection when
    none of them has a consumption strictly below the one already
    returned: the identifier, the consumption and the output are the
    same. *)
Theorem find_most_efficient_route_keeps_choice
        (s t : traffic_snapshot) (out : stdout)
        (b : option string) (m : Float.float) :
  find_most_efficient_route (Some s) out = (Returned (b, Some m), out) ->
  (forall e, In e t -> Float.ltb (consumption e) m = false) ->
  find_most_efficient_route (Some (s ++ t)) out = (Returned (b, Some m), out).
Proof.
  intros H Ht. destruct (find_eq_inv _ _ _ _ _ H) as [Hf Hloop].
  rewrite (find_truthy _ _ (falsy_app s t Hf)). cbn [items].
  rewrite select_loop_app, Hloop, (select_loop_keep t b m Ht). reflexivity.
Qed.

(** X1 (witness). A fourth route of 20 km without traffic after the mock
    data. *)
Lemma find_most_efficient_route_keeps_choice_witness :
  find_most_efficient_route
    (Some (MOCK_TRAFFIC_DATA ++
           [("route_4"%string, mk_route_data (Float.of_Z 20) (Float.lit 10 1))])) [] =
    (Returned (Some "route_2"%string, Some f0_84), []).
Proof.
  apply (find_most_efficient_route_keeps_choice MOCK_TRAFFIC_DATA).
  - vm_compute. reflexivity.
  - intros e [<- | []]. vm_compute. reflexivity.
Defined.

(** X2. Adding routes to a non-empty snapshot never raises the consumption
    that is returned: the selector returns a consumption for both
    snapshots, and the one of the longer snapshot is less than or equal to
    the other. *)
Theorem find_most_efficient_route_more_routes
        (s t : traffic_snapshot) (out : stdout) :
  s <> [] ->
  exists b m b' m',
    find_most_efficient_route (Some s) out = (Returned (b, Some m), out) /\
    find_most_efficient_route (Some (s ++ t)) out =
      (Returned (b', Some m'), out) /\
    Float.leb m' m = true.
Proof.
  intros Hs.
  assert (Hf : falsy_snapshot (Some s) = false) by (now destruct s).
  rewrite (find_truthy _ _ Hf), (find_truthy _ _ (falsy_app s t Hf)).
  cbn [items]. rewrite select_loop_app.
  pose proof (select_loop_not_nan s) as Hnan.
  destruct (select_loop s (None, Float.inf)) as [b m]. cbn [snd] in Hnan.
  pose proof (select_loop_le t b m Hnan) as Hle.
  destruct (select_loop t (b, m)) as [b' m']. cbn [fst snd] in *.
  now exists b, m, b', m'.
Qed.

(** X2 (witness). The mock data followed by a route of 5 km. *)
Lemma find_most_efficient_route_more_routes_witness :
  exists b m b' m',
    find_most_efficient_route (Some MOCK_TRAFFIC_DATA) [] =
      (Returned (b, Some m), []) /\
    find_most_efficient_route
      (Some (MOCK_TRAFFIC_DATA ++
             [("route_4"%string, mk_route_data (Float.of_Z 5) (Float.lit 10 1))])) [] =
      (Returned (b', Some m'), []) /\
    Float.leb m' m = true.
Proof.
  apply (find_most_efficient_route_more_routes MOCK_TRAFFIC_DATA). discriminate.
Defined.

(** X3. The consumption returned depends on the entries of the snapshot,
    not on their insertion order: two snapshots with the same entries, one
    of them selectable, make the selector return identifiers of entries
    whose consumptions are equal. Only the identifier chosen among equal
    minima can differ. *)
Theorem find_most_efficient_route_order_independent
        (s s' : traffic_snapshot) (out : stdout) :
  (forall e, In e s <-> In e s') ->
  (exists e, In e s /\ below_inf e = true) ->
  exists r d r' d',
    In (r, d) s /\ In (r', d') s /\
    find_most_efficient_route (Some s) out =
      (Returned (Some r, Some (consumption (r, d))), out) /\
    find_most_efficient_route (Some s') out =
      (Returned (Some r', Some (consumption (r', d'))), out) /\
    Float.eqb (consumption (r, d)) (consumption (r', d')) = true.
Proof.
  intros Hsame Hex.
  assert (Hex' : exists e, In e s' /\ below_inf e = true).
  { destruct Hex as (e & He & Hb). exists e. split; [now apply Hsame | exact Hb]. }
  destruct (select_loop_min s Hex) as (r & d & Hin & Hloop & Hinf & Hmin).
  destruct (select_loop_min s' Hex') as (r' & d' & Hin' & Hloop' & Hinf' & Hmin').
  assert (Hf : falsy_snapshot (Some s) = false) by (now destruct s).
  assert (Hf' : falsy_snapshot (Some s') = false) by (now destruct s').
  exists r, d, r', d'.
  rewrite (find_truthy _ _ Hf), (find_truthy _ _ Hf'). cbn [items].
  rewrite Hloop, Hloop'. cbn [fst snd].
  repeat split; trivial; [now apply Hsame |].
  pose proof (FloatOrder.ltb_not_nan _ _ Hinf) as Hn.
  pose proof (FloatOrder.ltb_not_nan _ _ Hinf') as Hn'.
  apply FloatOrderMore.leb_antisym; apply FloatOrder.not_ltb_leb; trivial.
  - apply Hmin. now apply Hsame.
  - apply Hmin'. now apply Hsame.
Qed.

(** X3 (witness). The mock data and the mock data in reverse order. *)
Lemma find_most_efficient_route_order_independent_witness :
  exists r d r' d',
    In (r, d) MOCK_TRAFFIC_DATA /\ In (r', d') MOCK_TRAFFIC_DATA /\
    find_most_efficient_route (Some MOCK_TRAFFIC_DATA) [] =
      (Returned (Some r, Some (consumption (r, d))), []) /\
    find_most_efficient_route (Some (rev MOCK_TRAFFIC_DATA)) [] =
      (Returned (Some r', Some (consumption (r', d'))), []) /\
    Float.eqb (consumption (r, d)) (consumption (r', d')) = true.
Proof.
  apply (find_most_efficient_route_order_independent
           MOCK_TRAFFIC_DATA (rev MOCK_TRAFFIC_DATA) []).
  - intros e. apply in_rev.
  - exists ("route_1"%string, mk_route_data (Float.of_Z 10) (Float.lit 12 1)).
    split; [left; reflexivity | vm_compute; reflexivity].
Defined.

(** X4. Routes whose consumption is not strictly below [float('inf')] (a
    NaN or [inf]) are ignored: when the snapshot has a selectable entry,
    removing all the others leaves the result and the output unchanged. *)
Theorem find_most_efficient_route_ignores_unselectable
        (s : traffic_snapshot) (out : stdout) :
  (exists e, In e s /\ below_inf e = true) ->
  find_most_efficient_route (Some (filter below_inf s)) out =
  find_most_efficient_route (Some s) out.
Proof.
  intros (e & He & Hb).
  assert (Hf : falsy_snapshot (Some s) = false) by (now destruct s).
  assert (Hin : In e (filter below_inf s)) by (apply filter_In; now split).
  assert (Hf' : falsy_snapshot (Some (filter below_inf s)) = false)
    by (now destruct (filter below_inf s)).
  rewrite (find_truthy _ _ Hf), (find_truthy _ _ Hf'). cbn [items].
  now rewrite select_loop_filter.
Qed.

(** X4 (witness). The snapshot whose first route has a NaN distance. *)
Lemma find_most_efficient_route_ignores_unselectable_witness :
  find_most_efficient_route (Some (filter below_inf nan_snapshot)) [] =
  find_most_efficient_route (Some nan_snapshot) [].
Proof.
  apply (find_most_efficient_route_ignores_unselectable nan_snapshot []).
  exists ("route_2"%string, mk_route_data (Float.of_Z 10) (Float.lit 10 1)).
  split; [right; left; reflexivity | vm_compute; reflexivity].
Defined.

(** X5. Whatever the snapshot, a consumption returned by the selector is
    never a NaN; when it comes with an identifier it is the consumption of
    an entry of that name and it is strictly below [float('inf')]. *)
Theorem find_most_efficient_route_consumption_not_nan
        (traffic_data : option traffic_snapshot) (out : stdout) :
  match fst (find_most_efficient_route traffic_data out) with
  | Returned (best_route, Some c) =>
      Float.is_nan c = false /\
      match best_route with
      | Some r =>
          Float.ltb c Float.inf = true /\
          exists d, In (r, d) (items traffic_data) /\ c = consumption (r, d)
      | None => c = Float.inf
      end
  | _ => True
  end.
Proof.
  destruct (falsy_snapshot traffic_data) eqn:Hf.
  - now rewrite (find_falsy _ out Hf).
  - rewrite (find_truthy _ out Hf). cbn [fst].
    pose proof (select_loop_not_nan (items traffic_data)) as Hnan.
    pose proof (loop_inv_holds (items traffic_data)) as Hinv.
    destruct (select_loop (items traffic_data) (None, Float.inf))
      as [[r |] m]; cbn [fst snd] in *; (split; [exact Hnan |]).
    + destruct Hinv as (_ & i & d & Hnth & -> & Hinf & _).
      split; [exact Hinf |]. exists d. split; [| reflexivity].
      now apply nth_error_In in Hnth.
    + now destruct Hinv.
Qed.

(** ** More on the arithmetic of the estimator *)

Module EstimatorFacts.
Import Round.

(** The rounding of [SpecFloat] treats the sign apart. *)
Lemma round_aux_opp (s : bool) (m e : Z) (l : location) :
  binary_round_aux 53 1024 (negb s) m e l =
  SFopp (binary_round_aux 53 1024 s m e l).
Proof.
  unfold binary_round_aux.
  destruct (shr_fexp 53 1024 m e l) as [mrs' e'].
  destruct (shr_fexp 53 1024 _ e' loc_Exact) as [mrs'' e''].
  destruct (shr_m mrs''); [reflexivity | | reflexivity].
  destruct (Z.leb e'' _); reflexivity.
Qed.

Lemma mul_opp_l (x y : spec_float) :
  SFmul 53 1024 (SFopp x) y = SFopp (SFmul 53 1024 x y).
Proof.
  destruct x as [sx | sx | | sx mx ex], y as [sy | sy | | sy my ey];
    cbn [SFopp SFmul]; try reflexivity;
    try (now rewrite <- Bool.negb_xorb_l).
  rewrite <- Bool.negb_xorb_l. apply round_aux_opp.
Qed.

Lemma mul_opp_r (x y : spec_float) :
  SFmul 53 1024 x (SFopp y) = SFopp (SFmul 53 1024 x y).
Proof.
  destruct x as [sx | sx | | sx mx ex], y as [sy | sy | | sy my ey];
    cbn [SFopp SFmul]; try reflexivity;
    try (now rewrite <- Bool.negb_xorb_r).
  rewrite <- Bool.negb_xorb_r. apply round_aux_opp.
Qed.

Lemma div_opp_l (x y : spec_float) :
  SFdiv 53 1024 (SFopp x) y = SFopp (SFdiv 53 1024 x y).
Proof.
  destruct x as [sx | sx | | sx mx ex], y as [sy | sy | | sy my ey];
    cbn [SFopp SFdiv]; try reflexivity;
    try (now rewrite <- Bool.negb_xorb_l).
  destruct (SFdiv_core_binary 53 1024 (Zpos mx) ex (Zpos my) ey) as [[mz ez] lz].
  rewrite <- Bool.negb_xorb_l. apply round_aux_opp.
Qed.

Lemma pz_of_finite (x : spec_float) :
  match x with S754_zero _ | S754_finite _ _ _ => true | _ => false end = true ->
  SFleb (S754_zero false) x = true -> pz x = true.
Proof.
  destruct x as [? | [] | | [] ? ?]; try discriminate; reflexivity.
Qed.

Lemma nonneg_facts (x : spec_float) :
  nonneg x = true ->
  match x with S754_nan => true | _ => false end = false /\
  SFleb (S754_zero false) x = true.
Proof.
  destruct x as [? | [] | | [] ? ?]; try discriminate; split; reflexivity.
Qed.

(** A finite product has finite factors, a finite quotient by a finite
    number a finite dividend. *)
Lemma mul_finite_inv (x y : spec_float) :
  match SFmul 53 1024 x y with
  | S754_zero _ | S754_finite _ _ _ => true | _ => false end = true ->
  match x with S754_zero _ | S754_finite _ _ _ => true | _ => false end = true /\
  match y with S754_zero _ | S754_finite _ _ _ => true | _ => false end = true.
Proof.
  destruct x as [sx | sx | | sx mx ex], y as [sy | sy | | sy my ey];
    cbn [SFmul]; try discriminate; split; reflexivity.
Qed.

Lemma div_finite_inv (x : spec_float) (my : positive) (ey : Z) :
  match SFdiv 53 1024 x (S754_finite false my ey) with
  | S754_zero _ | S754_finite _ _ _ => true | _ => false end = true ->
  match x with S754_zero _ | S754_finite _ _ _ => true | _ => false end = true.
Proof.
  destruct x as [sx | sx | | sx mx ex]; cbn [SFdiv]; try discriminate; reflexivity.
Qed.

End EstimatorFacts.

(** ** Consumption Estimator: signs, range and zero *)

Lemma calculate_fuel_efficiency_eq (d m : Float.float) :
  calculate_fuel_efficiency d m =
    SFmul 53 1024 (SFmul 53 1024 (SFdiv 53 1024 d f100) f7) m.
Proof.
  reflexivity.
Qed.

Lemma estimate_opp (d m : Float.float) :
  calculate_fuel_efficiency (float_neg d) m =
    float_neg (calculate_fuel_efficiency d m) /\
  calculate_fuel_efficiency d (float_neg m) =
    float_neg (calculate_fuel_efficiency d m).
Proof.
  rewrite !calculate_fuel_efficiency_eq. unfold float_neg, f100. split.
  - now rewrite EstimatorFacts.div_opp_l, !EstimatorFacts.mul_opp_l.
  - apply EstimatorFacts.mul_opp_r.
Qed.

(** X6. No input is rejected and the estimator is odd in each argument:
    negating the distance, or the multiplier, negates the consumption, for
    all floats (a NaN stays a NaN, zeros keep track of the sign). *)
Theorem calculate_fuel_efficiency_odd (d m : Float.float) :
  calculate_fuel_efficiency (float_neg d) m =
    float_neg (calculate_fuel_efficiency d m) /\
  calculate_fuel_efficiency d (float_neg m) =
    float_neg (calculate_fuel_efficiency d m).
Proof.
  exact (estimate_opp d m).
Qed.

(** X7. For a finite non-negative distance and a finite non-negative
    multiplier the consumption is a well-formed float that is not a NaN
    and not negative: zero, a positive number, or [float('inf')] when the
    last product overflows. *)
Theorem calculate_fuel_efficiency_nonneg (d m : Float.float) :
  Float.valid d = true -> Float.valid m = true ->
  Float.is_finite d = true -> Float.is_finite m = true ->
  Float.leb Float.zero d = true -> Float.leb Float.zero m = true ->
  Float.valid (calculate_fuel_efficiency d m) = true /\
  Float.is_nan (calculate_fuel_efficiency d m) = false /\
  Float.leb Float.zero (calculate_fuel_efficiency d m) = true.
Proof.
  intros Vd Vm Fd Fm Zd Zm. rewrite calculate_fuel_efficiency_eq.
  pose proof (EstimatorFacts.pz_of_finite d Fd Zd) as Pd.
  pose proof (EstimatorFacts.pz_of_finite m Fm Zm) as Pm.
  destruct (RoundFacts.base_class d Vd Pd) as [Vb Pb].
  destruct (RoundFacts.mul_class _ m Vb Vm Pb Pm) as [Vr Nr].
  split; [exact Vr |]. now apply EstimatorFacts.nonneg_facts.
Qed.

(** X7 (witness). 10 km at multiplier 1.2. *)
Lemma calculate_fuel_efficiency_nonneg_witness :
  Float.valid (calculate_fuel_efficiency (Float.of_Z 10) (Float.lit 12 1)) = true /\
  Float.is_nan (calculate_fuel_efficiency (Float.of_Z 10) (Float.lit 12 1)) = false /\
  Float.leb Float.zero
            (calculate_fuel_efficiency (Float.of_Z 10) (Float.lit 12 1)) = true.
Proof.
  apply (calculate_fuel_efficiency_nonneg (Float.of_Z 10) (Float.lit 12 1));
    vm_compute; reflexivity.
Defined.

(** X8. A zero multiplier, of either sign, gives a zero consumption for
    every finite distance, negative ones included: the scaled distance
    [(d / 100) * 7.0] cannot overflow. *)
Theorem calculate_fuel_efficiency_zero_multiplier (d m : Float.float) :
  Float.valid d = true -> Float.is_finite d = true ->
  Float.eqb m Float.zero = true ->
  Float.eqb (calculate_fuel_efficiency d m) Float.zero = true.
Proof.
  intros Vd Fd Hm.
  assert (Hz : exists s, m = S754_zero s).
  { destruct m as [s | [] | | [] ? ?]; try discriminate. now exists s. }
  destruct Hz as [s ->].
  assert (Hpos : forall x, Float.valid x = true -> Round.pz x = true ->
            exists s', calculate_fuel_efficiency x (S754_zero s) = S754_zero s').
  { intros x Vx Px. rewrite calculate_fuel_efficiency_eq.
    destruct (RoundFacts.base_class x Vx Px) as [_ Pb].
    destruct (SFmul 53 1024 (SFdiv 53 1024 x f100) f7)
      as [sb | | | [] mb eb]; try discriminate; cbn [SFmul]; eauto. }
  destruct d as [sd | | | [] md ed]; try discriminate.
  - destruct (Hpos (S754_zero sd) Vd eq_refl) as [s' ->]. reflexivity.
  - change (S754_finite true md ed) with (float_neg (S754_finite false md ed)).
    destruct (estimate_opp (S754_finite false md ed) (S754_zero s)) as [-> _].
    destruct (Hpos (S754_finite false md ed) Vd eq_refl) as [s' ->]. reflexivity.
  - destruct (Hpos (S754_finite false md ed) Vd eq_refl) as [s' ->]. reflexivity.
Qed.

(** X8 (witness). Minus 10 km at multiplier zero. *)
Lemma calculate_fuel_efficiency_zero_multiplier_witness :
  Float.eqb (calculate_fuel_efficiency (Float.of_Z (-10)) Float.zero)
            Float.zero = true.
Proof.
  apply (calculate_fuel_efficiency_zero_multiplier (Float.of_Z (-10)) Float.zero);
    vm_compute; reflexivity.
Defined.

(** X9. Finite consumptions are closed downwards: when the consumption of
    [(d2, m2)] is finite, the consumption of every pair of non-negative
    inputs with [d1 <= d2] and [m1 <= m2] is finite too; no overflow and
    no NaN can appear below a pair that is known to be safe. *)
Theorem calculate_fuel_efficiency_finite_below (d1 m1 d2 m2 : Float.float) :
  Float.valid d1 = true -> Float.valid m1 = true ->
  Float.valid d2 = true -> Float.valid m2 = true ->
  Float.leb Float.zero d1 = true -> Float.leb d1 d2 = true ->
  Float.leb Float.zero m1 = true -> Float.leb m1 m2 = true ->
  Float.is_finite (calculate_fuel_efficiency d2 m2) = true ->
  Float.is_finite (calculate_fuel_efficiency d1 m1) = true.
Proof.
  intros Vd1 Vm1 Vd2 Vm2 Zd1 Hd Zm1 Hm Hfin.
  rewrite calculate_fuel_efficiency_eq in Hfin |- *.
  destruct (EstimatorFacts.mul_finite_inv _ _ Hfin) as [Fb Fm2].
  destruct (EstimatorFacts.mul_finite_inv _ _ Fb) as [Fa _].
  pose proof (EstimatorFacts.div_finite_inv _ _ _ Fa) as Fd2.
  destruct (RoundFacts.pz_upper d1 d2 Zd1 Hd Fd2) as [Pd1 Pd2].
  destruct (RoundFacts.pz_upper m1 m2 Zm1 Hm Fm2) as [Pm1 Pm2].
  pose proof (RoundFacts.estimate_mono d1 m1 d2 m2 Vd1 Vm1 Vd2 Vm2
                Pd1 Pm1 Pd2 Pm2 Hd Hm) as Hle.
  destruct (RoundFacts.base_class d1 Vd1 Pd1) as [Vb1 Pb1].
  destruct (RoundFacts.base_class d2 Vd2 Pd2) as [Vb2 Pb2].
  destruct (RoundFacts.mul_class _ m1 Vb1 Vm1 Pb1 Pm1) as [_ N1].
  destruct (RoundFacts.mul_class _ m2 Vb2 Vm2 Pb2 Pm2) as [_ N2].
  set (r1 := SFmul 53 1024 (SFmul 53 1024 (SFdiv 53 1024 d1 f100) f7) m1) in *.
  set (r2 := SFmul 53 1024 (SFmul 53 1024 (SFdiv 53 1024 d2 f100) f7) m2) in *.
  clearbody r1 r2.
  destruct r1 as [? | [] | | [] ? ?]; try discriminate; try reflexivity.
  destruct r2 as [? | [] | | [] ? ?]; discriminate.
Qed.

(** X9 (witness). Below one million km at multiplier 100. *)
Lemma calculate_fuel_efficiency_finite_below_witness :
  Float.is_finite
    (calculate_fuel_efficiency (Float.of_Z 12) (Float.lit 15 1)) = true.
Proof.
  apply (calculate_fuel_efficiency_finite_below
           (Float.of_Z 12) (Float.lit 15 1) (Float.of_Z 1000000) (Float.of_Z 100));
    vm_compute; reflexivity.
Defined.

(** ** Driver: the complete output *)

(** X10. The two random draws determine the whole run, and earlier output
    is kept: [main] always returns normally; after a delay of at least
    [0.15] it prints the five lines of a failed run with the timeout
    message, otherwise with a false choice the five lines with the
    data-unavailable message, and otherwise its two progress lines and the
    success line for [route_2] with ["0.84"]. *)
Theorem main_complete_output
        (network_delay : Float.float) (choice : bool) (out : stdout) :
  main network_delay choice out =
    (Returned tt,
     out ++
     (if Float.geb network_delay timeout_threshold
      then failed_run "Network timeout."
      else if choice
           then [fetching_line; calculating_line;
                 success_line "route_2" "0.84"]
           else failed_run "Failed to fetch traffic data.")).
Proof.
  rewrite main_unfold, fetch_eq.
  destruct (Float.geb network_delay timeout_threshold); [| destruct choice].
  - rewrite find_falsy by reflexivity. cbn [truthy]. unfold failed_run.
    now rewrite <- !app_assoc.
  - rewrite find_mock. cbn [truthy str_of].
    replace (format_2f f0_84) with "0.84"%string by (vm_compute; reflexivity).
    now rewrite <- !app_assoc.
  - rewrite find_falsy by reflexivity. cbn [truthy]. unfold failed_run.
    now rewrite <- !app_assoc.
Qed.

(** * Part VI: the accuracy of the estimator

    The estimator rounds three times. Each rounding to nearest moves a
    non-negative value [x] by at most half a unit in the last place, which
    is at most [x * 2^-53] in the normal range and [2^-1075] below it. The
    three errors compose into a bound on the distance between the returned
    float and the exact product [(d / 100) * 7 * m]. *)

Module ErrorFacts.
Import Round RoundFacts Rat.

(** The code of a doubled numerator: four times the quotient plus the
    position of the remainder. *)
Lemma kappa_double (N D : Z) :
  0 <= N -> 0 < D ->
  kappa (2 * N) D =
    4 * (N / D) +
    (if N mod D =? 0 then 0
     else match 2 * (N mod D) ?= D with Lt => 1 | Eq => 2 | Gt => 3 end).
Proof.
  intros HN HD.
  pose proof (Z.div_mod N D ltac:(lia)) as E.
  pose proof (Z.mod_pos_bound N D HD) as B.
  set (q := N / D) in *. set (r := N mod D) in *.
  unfold kappa. destruct (Z.eqb_spec r 0) as [Hr | Hr].
  - assert (E2 : 2 * N = (2 * q) * D) by lia.
    rewrite E2, Z.div_mul, Z.mod_mul by lia. rewrite Z.eqb_refl. lia.
  - destruct (Z.compare_spec (2 * r) D) as [Hc | Hc | Hc].
    + assert (E2 : 2 * N = (2 * q + 1) * D) by lia.
      rewrite E2, Z.div_mul, Z.mod_mul by lia. rewrite Z.eqb_refl. lia.
    + rewrite <- (Z.div_unique (2 * N) D (2 * q) (2 * r)) by lia.
      rewrite <- (Z.mod_unique (2 * N) D (2 * q) (2 * r)) by lia.
      destruct (Z.eqb_spec (2 * r) 0); lia.
    + rewrite <- (Z.div_unique (2 * N) D (2 * q + 1) (2 * r - D)) by lia.
      rewrite <- (Z.mod_unique (2 * N) D (2 * q + 1) (2 * r - D)) by lia.
      destruct (Z.eqb_spec (2 * r - D) 0); lia.
Qed.

(** Rounding a code to nearest moves the value by at most one half. *)
Lemma rne_kappa_error (N P : Z) :
  0 <= N -> 0 < P ->
  Z.abs (2 * rne (kappa (2 * N) P) * P - 2 * N) <= P /\
  N / P <= rne (kappa (2 * N) P).
Proof.
  intros HN HP. rewrite (kappa_double N P HN HP).
  pose proof (Z.div_mod N P ltac:(lia)) as E.
  pose proof (Z.mod_pos_bound N P HP) as B.
  set (q := N / P) in *. set (r := N mod P) in *.
  set (c := if r =? 0 then 0
            else match 2 * r ?= P with Lt => 1 | Eq => 2 | Gt => 3 end).
  assert (Hc : 0 <= c < 4).
  { subst c. destruct (r =? 0); [lia |]. destruct (2 * r ?= P); lia. }
  unfold rne.
  replace ((4 * q + c) / 4) with q by (Z.div_mod_to_equations; lia).
  replace ((4 * q + c) mod 4) with c by (Z.div_mod_to_equations; lia).
  subst c. destruct (Z.eqb_spec r 0) as [Hr | Hr].
  - split; nia.
  - destruct (Z.compare_spec (2 * r) P) as [Hc' | Hc' | Hc'].
    + destruct (Z.even q); split; nia.
    + split; nia.
    + split; nia.
Qed.

(** Above the minimal exponent the shifted quotient has 53 digits. *)
Lemma shifted_floor (k e : Z) :
  0 <= k -> e <= fexp64 (Zdigits2 (k / 4) + e) ->
  let E := fexp64 (Zdigits2 (k / 4) + e) in
  -1074 < E -> 2 ^ 52 <= (k / 4) / 2 ^ (E - e).
Proof.
  intros Hk He E HE.
  assert (Hm : 0 <= k / 4) by (apply Z.div_pos; lia).
  assert (Hn : 0 <= E - e) by (subst E; lia).
  pose proof (RoundFacts.Zdigits2_div_pow2 (k / 4) (E - e) Hm Hn) as Hd.
  assert (Hd53 : Zdigits2 ((k / 4) / 2 ^ (E - e)) = 53)
    by (rewrite Hd; subst E; unfold fexp64 in *; lia).
  assert (Hq : 0 <= (k / 4) / 2 ^ (E - e))
    by (apply Z.div_pos; [lia | apply Z.pow_pos_nonneg; lia]).
  assert (0 < (k / 4) / 2 ^ (E - e)).
  { destruct (Z.eq_dec ((k / 4) / 2 ^ (E - e)) 0) as [E0 | ]; [| lia].
    rewrite E0 in Hd53. discriminate. }
  pose proof (RoundFacts.Zdigits2_bounds _ H) as Hb. rewrite Hd53 in Hb.
  change (53 - 1) with 52 in Hb. lia.
Qed.

(** *** Rational values *)

Import QArith Qabs Qpower Lqa.
Local Open Scope Q_scope.

Lemma two_neq_0 : ~ 2 == 0.
Proof. discriminate. Qed.

Lemma inject_Z_pos (z : Z) : (0 < z)%Z -> 0 < inject_Z z.
Proof. intros H. unfold Qlt. simpl. lia. Qed.

Lemma inject_Z_le (x y : Z) : (x <= y)%Z -> inject_Z x <= inject_Z y.
Proof. intros H. now rewrite <- Zle_Qle. Qed.

Lemma le_from_scaled (c rho P N : Q) :
  0 < P -> rho * P == N -> c * P <= N -> c <= rho.
Proof.
  intros HP Hrho H. rewrite <- Hrho in H.
  apply Qnot_lt_le. intros Hc.
  assert (rho * P < c * P) by (apply Qmult_lt_r; assumption).
  lra.
Qed.

Lemma ulp_small (rho t u eta : Q) :
  0 <= rho -> 0 < t -> 0 < u -> t * (1 # 2) == eta ->
  t * (1 # 2) <= rho * t * u + eta.
Proof.
  intros Hr Ht Hu He.
  assert (0 <= rho * t * u).
  { apply Qmult_le_0_compat; [apply Qmult_le_0_compat |]; lra. }
  lra.
Qed.

Lemma ulp_normal (c rho t u eta : Q) :
  c <= rho -> c * u == 1 # 2 -> 0 < u -> 0 < t -> 0 <= eta ->
  t * (1 # 2) <= rho * t * u + eta.
Proof.
  intros Hc Hcu Hu Ht He.
  assert (H1 : c * u <= rho * u) by (apply Qmult_le_compat_r; lra).
  assert (H2 : t * (c * u) <= t * (rho * u)) by (apply Qmult_le_l; lra).
  assert (E1 : t * (c * u) == t * (1 # 2)) by (rewrite Hcu; reflexivity).
  assert (E2 : t * (rho * u) == rho * t * u) by ring.
  lra.
Qed.

Lemma scaled_error (qr rho t B : Q) :
  - (1 # 2) <= qr - rho <= 1 # 2 -> 0 < t -> t * (1 # 2) <= B ->
  Qabs (qr * t - rho * t) <= B.
Proof.
  intros [H1 H2] Ht HB. apply Qabs_Qle_condition.
  assert (E : qr * t - rho * t == t * (qr - rho)) by ring.
  assert (Ha : t * - (1 # 2) <= t * (qr - rho)) by (apply Qmult_le_l; lra).
  assert (Hb : t * (qr - rho) <= t * (1 # 2)) by (apply Qmult_le_l; lra).
  split; lra.
Qed.

Lemma half_from_scaled (r rho P N : Q) :
  0 < P -> rho * P == N ->
  - P <= 2 * r * P + - (2 * N) -> 2 * r * P + - (2 * N) <= P ->
  - (1 # 2) <= r - rho <= 1 # 2.
Proof.
  intros HP Hrho H1 H2.
  assert (E : 2 * r * P + - (2 * N) == 2 * P * (r - rho)) by (rewrite <- Hrho; ring).
  rewrite E in H1, H2. clear E Hrho.
  set (d := r - rho) in *. clearbody d.
  split.
  - apply Qnot_lt_le. intros Hc.
    assert (2 * P * d < 2 * P * - (1 # 2)) by (apply Qmult_lt_l; lra).
    lra.
  - apply Qnot_lt_le. intros Hc.
    assert (2 * P * (1 # 2) < 2 * P * d) by (apply Qmult_lt_l; lra).
    lra.
Qed.

Lemma value_pack (m e : Z) :
  (0 < m)%Z -> pz (pack m e) = true ->
  float_value (pack m e) == inject_Z m * 2 ^ e.
Proof.
  intros Hm. unfold pack. destruct (e <=? 971)%Z; [| discriminate].
  intros _. cbn [float_value]. rewrite Z2Pos.id by exact Hm. ring.
Qed.

Lemma value_finish (r E : Z) :
  (0 <= r)%Z -> pz (finish r E) = true ->
  float_value (finish r E) == inject_Z r * 2 ^ E.
Proof.
  intros Hr. unfold finish.
  destruct (Z.eqb_spec r 0) as [-> | H0].
  - intros _. cbn [float_value]. ring.
  - destruct (Z.eqb_spec r (2 ^ 53)) as [-> | H1]; intros Hp.
    + rewrite value_pack by (trivial; reflexivity).
      rewrite (Qpower_plus 2 E 1 two_neq_0).
      change (inject_Z (2 ^ 52)) with (4503599627370496 # 1).
      change (inject_Z (2 ^ 53)) with (9007199254740992 # 1).
      change (2 ^ 1) with (2 # 1). ring.
    + apply value_pack; [lia | exact Hp].
Qed.

(** One rounding: the rounded value of [N / D * 2^e] is within half a unit
    in the last place, that is within a relative [2^-53] or, below the
    normal range, an absolute [2^-1075]. *)
Lemma value_round_code (N D e : Z) :
  (0 <= N)%Z -> (0 < D)%Z ->
  (e <= fexp64 (Zdigits2 (kappa (2 * N) D / 4) + e))%Z ->
  pz (round_code (kappa (2 * N) D) e) = true ->
  Qabs (float_value (round_code (kappa (2 * N) D) e)
        - inject_Z N / inject_Z D * 2 ^ e)
  <= inject_Z N / inject_Z D * 2 ^ e * 2 ^ (-53) + 2 ^ (-1075).
Proof.
  intros HN HD Hpre Hpz.
  assert (Hk : (0 <= kappa (2 * N) D)%Z) by (apply RoundFacts.kappa_nonneg; lia).
  pose proof (shifted_floor _ e Hk Hpre) as Hfloor.
  destruct (RoundFacts.shifted_bounds _ e Hk Hpre) as (Hr & _ & HEmin).
  unfold round_code in *. cbv zeta in Hfloor.
  set (E := fexp64 (Zdigits2 (kappa (2 * N) D / 4) + e)) in *.
  assert (Hn : (0 <= E - e)%Z) by lia.
  assert (Hp : (0 < 2 ^ (E - e))%Z) by (apply Z.pow_pos_nonneg; lia).
  assert (Hshift : shift_code (E - e) (kappa (2 * N) D) =
                   kappa (2 * N) (D * 2 ^ (E - e))).
  { unfold shift_code. rewrite Z.pow_add_r by lia. change (2 ^ 1)%Z with 2%Z.
    rewrite (Z.mul_comm (2 ^ (E - e)) 2). apply RoundFacts.kappa_kappa; lia. }
  rewrite Hshift in *.
  assert (Hfl : (kappa (2 * N) D / 4 / 2 ^ (E - e) = N / (D * 2 ^ (E - e)))%Z).
  { rewrite RoundFacts.kappa_div4 by lia.
    rewrite Z.div_mul_cancel_l by lia. rewrite Z.div_div by lia. reflexivity. }
  rewrite Hfl in Hfloor.
  set (P := (D * 2 ^ (E - e))%Z) in *.
  assert (HP : (0 < P)%Z) by (subst P; lia).
  destruct (rne_kappa_error N P HN HP) as [Herr _].
  set (r := rne (kappa (2 * N) P)) in *.
  rewrite (value_finish r E) by (trivial; lia).
  (* the exact value on the grid of exponent [E] *)
  assert (HtE : 2 ^ E == 2 ^ e * inject_Z (2 ^ (E - e))).
  { rewrite Zpower_Qpower by lia. rewrite <- Qpower_plus by exact two_neq_0.
    replace (e + (E - e))%Z with E by lia. reflexivity. }
  assert (HqD : 0 < inject_Z D) by (apply inject_Z_pos; lia).
  assert (HqP : 0 < inject_Z P) by (apply inject_Z_pos; lia).
  assert (HqPe : inject_Z P == inject_Z D * inject_Z (2 ^ (E - e)))
    by (subst P; now rewrite inject_Z_mult).
  assert (H2n : 0 < inject_Z (2 ^ (E - e))) by (apply inject_Z_pos; lia).
  assert (HX : inject_Z N / inject_Z D * 2 ^ e
               == inject_Z N / inject_Z P * 2 ^ E).
  { rewrite HtE, HqPe. field. split; lra. }
  assert (Hte : 0 < 2 ^ e) by (apply Qpower_0_lt; reflexivity).
  assert (HtEp : 0 < 2 ^ E) by (apply Qpower_0_lt; reflexivity).
  rewrite HX.
  set (rho := inject_Z N / inject_Z P) in *.
  assert (Hrho : rho * inject_Z P == inject_Z N)
    by (subst rho; field; lra).
  clearbody rho.
  (* the rounded mantissa is within one half of the quotient *)
  assert (Hhalf : - (1 # 2) <= inject_Z r - rho <= 1 # 2).
  { apply Z.abs_le in Herr.
    assert (H1 : inject_Z (- P) <= inject_Z (2 * r * P - 2 * N))
      by (apply inject_Z_le; lia).
    assert (H2 : inject_Z (2 * r * P - 2 * N) <= inject_Z P)
      by (apply inject_Z_le; lia).
    unfold Z.sub in H1, H2.
    rewrite inject_Z_plus, !inject_Z_opp, !inject_Z_mult in H1, H2.
    change (inject_Z 2) with 2 in H1, H2.
    now apply (half_from_scaled _ _ (inject_Z P) (inject_Z N)). }
  (* half a unit in the last place against the two error terms *)
  assert (Hrho0 : 0 <= rho).
  { apply (le_from_scaled 0 rho (inject_Z P) (inject_Z N)); trivial.
    rewrite Qmult_0_l. apply (inject_Z_le 0). lia. }
  assert (Hulp : 2 ^ E * (1 # 2) <= rho * 2 ^ E * 2 ^ (-53) + 2 ^ (-1075)).
  { destruct (Z.eq_dec E (-1074)) as [HE | HE].
    - rewrite HE. apply ulp_small; trivial; reflexivity.
    - apply (ulp_normal (inject_Z (2 ^ 52))); trivial; try reflexivity.
      + apply (le_from_scaled _ rho (inject_Z P) (inject_Z N)); trivial.
        rewrite <- inject_Z_mult. apply inject_Z_le.
        specialize (Hfloor ltac:(lia)).
        assert (Hfl2 : (P * (N / P) <= N)%Z) by (apply Z.mul_div_le; lia).
        nia.
      + discriminate. }
  now apply scaled_error.
Qed.

Lemma mult_le_l (z x y : Q) : 0 <= z -> x <= y -> z * x <= z * y.
Proof.
  intros Hz Hxy. rewrite (Qmult_comm z x), (Qmult_comm z y).
  now apply Qmult_le_compat_r.
Qed.

Lemma three_roundings (X M a b r u eta : Q) :
  0 <= X -> 0 <= M -> 0 < u -> u <= 1 # 4 -> 0 <= eta ->
  Qabs (a - X) <= X * u + eta ->
  Qabs (b - a * 7) <= a * 7 * u + eta ->
  Qabs (r - b * M) <= b * M * u + eta ->
  Qabs (r - X * 7 * M) <= X * 7 * M * (4 * u) + (16 * M + 2) * eta.
Proof.
  intros HX HM Hu Hu4 He Ha Hb Hr.
  apply Qabs_Qle_condition in Ha, Hb, Hr. apply Qabs_Qle_condition.
  destruct Ha as [Ha1 Ha2], Hb as [Hb1 Hb2], Hr as [Hr1 Hr2].
  assert (Bup : b <= 7 * X + 14 * (X * u) + 7 * (X * u * u) + 7 * (eta * u) + 8 * eta) by nra.
  assert (Blo : 7 * X - 14 * (X * u) + 7 * (X * u * u) + 7 * (eta * u) - 8 * eta <= b) by nra.
  clear Ha1 Ha2 Hb1 Hb2.
  assert (Hu1 : 0 <= 1 - u) by lra.
  assert (Hu2 : 0 <= M * (1 - u)) by (apply Qmult_le_0_compat; lra).
  assert (Hu3 : 0 <= M * (1 + u)) by (apply Qmult_le_0_compat; lra).
  assert (Rup : r <= (7 * X + 14 * (X * u) + 7 * (X * u * u) + 7 * (eta * u) + 8 * eta)
                       * (M * (1 + u)) + eta).
  { assert (b * (M * (1 + u)) <= (7 * X + 14 * (X * u) + 7 * (X * u * u) + 7 * (eta * u) + 8 * eta)
                       * (M * (1 + u))) by (apply Qmult_le_compat_r; assumption).
    assert (b * (M * (1 + u)) == b * M + b * M * u) by ring. lra. }
  assert (Rlo : (7 * X - 14 * (X * u) + 7 * (X * u * u) + 7 * (eta * u) - 8 * eta)
                       * (M * (1 - u)) - eta <= r).
  { assert ((7 * X - 14 * (X * u) + 7 * (X * u * u) + 7 * (eta * u) - 8 * eta)
                       * (M * (1 - u)) <= b * (M * (1 - u))) by (apply Qmult_le_compat_r; assumption).
    assert (b * (M * (1 - u)) == b * M - b * M * u) by ring. lra. }
  clear Hr1 Hr2 Bup Blo.
  assert (XM : 0 <= X * M) by (apply Qmult_le_0_compat; lra).
  assert (EM : 0 <= eta * M) by (apply Qmult_le_0_compat; lra).
  set (xm := X * M) in *. set (em := eta * M) in *.
  assert (Eup : (7 * X + 14 * (X * u) + 7 * (X * u * u) + 7 * (eta * u) + 8 * eta)
                       * (M * (1 + u))
                == xm * (7 + 21 * u + 21 * (u * u) + 7 * (u * u * u))
                   + em * (8 + 15 * u + 7 * (u * u))) by (subst xm em; ring).
  assert (Elo : (7 * X - 14 * (X * u) + 7 * (X * u * u) + 7 * (eta * u) - 8 * eta)
                       * (M * (1 - u))
                == xm * (7 - 21 * u + 21 * (u * u) - 7 * (u * u * u))
                   - em * (8 - 15 * u + 7 * (u * u))) by (subst xm em; ring).
  rewrite Eup in Rup. rewrite Elo in Rlo. clear Eup Elo.
  assert (G : X * 7 * M * (4 * u) + (16 * M + 2) * eta == xm * (28 * u) + 16 * em + 2 * eta)
    by (subst xm em; ring).
  assert (G2 : r - X * 7 * M == r - 7 * xm) by (subst xm; ring).
  rewrite G, G2. clear G G2. clearbody xm em.
  assert (U2 : 0 <= u * u <= u * (1 # 4)) by nra.
  assert (U3 : 0 <= u * u * u <= u * (1 # 16)) by nra.
  set (u3 := u * u * u) in *. set (u2 := u * u) in *. clearbody u2 u3.
  assert (C1 : xm * (7 + 21 * u + 21 * u2 + 7 * u3) <= xm * (7 + 28 * u))
    by (apply mult_le_l; [assumption | lra]).
  assert (C2 : em * (8 + 15 * u + 7 * u2) <= em * 16)
    by (apply mult_le_l; [assumption | lra]).
  assert (C3 : xm * (7 - 28 * u) <= xm * (7 - 21 * u + 21 * u2 - 7 * u3))
    by (apply mult_le_l; [assumption | lra]).
  assert (C4 : em * (8 - 15 * u + 7 * u2) <= em * 16)
    by (apply mult_le_l; [assumption | lra]).
  split; lra.
Qed.

(** *** The operations of the estimator *)

Lemma error_wd (v X X' u eta : Q) :
  X == X' -> Qabs (v - X) <= X * u + eta -> Qabs (v - X') <= X' * u + eta.
Proof.
  intros E H. rewrite <- E. exact H.
Qed.

Lemma zero_error (X : Q) :
  X == 0 -> Qabs (0 - X) <= X * 2 ^ (-53) + 2 ^ (-1075).
Proof.
  intros E. rewrite E. apply Qabs_Qle_condition.
  assert (0 < 2 ^ (-1075)) by (apply Qpower_0_lt; reflexivity).
  split; lra.
Qed.

(** One multiplication of finite non-negative floats. *)
Lemma mul_error (x y : spec_float) :
  valid_binary 53 1024 x = true -> valid_binary 53 1024 y = true ->
  pz x = true -> pz y = true -> pz (SFmul 53 1024 x y) = true ->
  Qabs (float_value (SFmul 53 1024 x y) - float_value x * float_value y)
  <= float_value x * float_value y * 2 ^ (-53) + 2 ^ (-1075).
Proof.
  intros Vx Vy Px Py.
  destruct x as [sx | | | [] mx ex]; try discriminate Px;
  destruct y as [sy | | | [] my ey]; try discriminate Py.
  1-3: intros _; cbn [SFmul float_value]; apply zero_error; ring.
  destruct (valid_canonical _ _ _ Vx) as [Cx _].
  destruct (valid_canonical _ _ _ Vy) as [Cy _].
  destruct (mul_spec mx ex my ey Cx Cy) as [-> P].
  assert (Hk : (4 * (Zpos mx * Zpos my) = kappa (2 * (Zpos mx * Zpos my)) 1)%Z)
    by (rewrite kappa_1; lia).
  rewrite Hk in *. intros Hpz.
  apply (error_wd _ (inject_Z (Zpos mx * Zpos my) / inject_Z 1 * 2 ^ (ex + ey))).
  - cbn [float_value]. rewrite inject_Z_mult, (Qpower_plus 2 ex ey two_neq_0).
    change (inject_Z 1) with 1. field.
  - apply value_round_code; trivial; lia.
Qed.

(** One division of a finite non-negative float by a positive one. *)
Lemma div_error (x : spec_float) (my : positive) (ey : Z) :
  pz x = true -> pz (SFdiv 53 1024 x (S754_finite false my ey)) = true ->
  Qabs (float_value (SFdiv 53 1024 x (S754_finite false my ey))
        - float_value x / float_value (S754_finite false my ey))
  <= float_value x / float_value (S754_finite false my ey) * 2 ^ (-53)
     + 2 ^ (-1075).
Proof.
  intros Px. destruct x as [sx | | | [] mx ex]; try discriminate Px.
  - intros _. cbn [SFdiv float_value]. apply zero_error.
    unfold Qdiv. ring.
  - destruct (div_spec mx ex my ey) as (-> & K & P). intros Hpz.
    set (e' := div_exp mx ex my ey) in *.
    assert (Hs : (0 <= ex - ey - e')%Z) by (subst e'; unfold div_exp; lia).
    set (s := (ex - ey - e')%Z) in *.
    assert (Hp : (0 < 2 ^ s)%Z) by (apply Z.pow_pos_nonneg; lia).
    assert (Hy : 0 < inject_Z (Zpos my)) by (apply inject_Z_pos; lia).
    assert (Hey : 0 < 2 ^ ey) by (apply Qpower_0_lt; reflexivity).
    apply (error_wd _ (inject_Z (Zpos mx * 2 ^ s) / inject_Z (Zpos my) * 2 ^ e')).
    + assert (Hex : 2 ^ ex == 2 ^ s * 2 ^ e' * 2 ^ ey).
      { rewrite <- !Qpower_plus by exact two_neq_0.
        replace (s + e' + ey)%Z with ex by (subst s; lia). reflexivity. }
      cbn [float_value]. rewrite inject_Z_mult, Zpower_Qpower by lia.
      change (inject_Z 2) with 2. rewrite Hex. clear Hex.
      set (ps := 2 ^ s) in *. set (pe := 2 ^ e') in *. set (py := 2 ^ ey) in *.
      set (qx := inject_Z (Zpos mx)) in *. set (qy := inject_Z (Zpos my)) in *.
      clearbody ps pe py qx qy. field. split; lra.
    + apply value_round_code; trivial; lia.
Qed.

(** The quotient [d / 100] of a finite non-negative distance is finite. *)
Lemma quotient_class (d : spec_float) :
  valid_binary 53 1024 d = true -> pz d = true ->
  valid_binary 53 1024 (SFdiv 53 1024 d f100) = true /\
  pz (SFdiv 53 1024 d f100) = true.
Proof.
  intros V P.
  assert (Vmax : valid_binary 53 1024 max_float = true) by reflexivity.
  assert (Pmax : pz max_float = true) by reflexivity.
  pose proof (leb_max_float d V P) as Hmax.
  set (c1 := SFdiv 53 1024 max_float f100).
  assert (Pc1 : pz c1 = true) by (vm_compute; reflexivity).
  unfold f100 in *.
  destruct (div_class d 7036874417766400 (-46) P) as [Va Na].
  pose proof (div_mono d max_float 7036874417766400 (-46) V Vmax P Pmax Hmax) as Ha.
  fold c1 in Ha. split; [exact Va |].
  exact (nonneg_below_finite _ c1 Na Pc1 Ha).
Qed.

Lemma value_f100 : float_value f100 == 100.
Proof. vm_compute. reflexivity. Qed.

Lemma value_f7 : float_value f7 == 7.
Proof. vm_compute. reflexivity. Qed.

Lemma value_nonneg (x : spec_float) : pz x = true -> 0 <= float_value x.
Proof.
  destruct x as [s | | | [] m e]; try discriminate; intros _;
    cbn [float_value]; try lra.
  assert (0 < 2 ^ e) by (apply Qpower_0_lt; reflexivity).
  assert (0 < inject_Z (Zpos m)) by (apply inject_Z_pos; lia).
  apply Qmult_le_0_compat; [| lra]. lra.
Qed.

(** The three operations of the estimator together. *)
Lemma estimate_error (d m : spec_float) :
  valid_binary 53 1024 d = true -> valid_binary 53 1024 m = true ->
  pz d = true -> pz m = true ->
  pz (SFmul 53 1024 (SFmul 53 1024 (SFdiv 53 1024 d f100) f7) m) = true ->
  Qabs (float_value (SFmul 53 1024 (SFmul 53 1024 (SFdiv 53 1024 d f100) f7) m)
        - float_value d / 100 * 7 * float_value m)
  <= float_value d / 100 * 7 * float_value m * 2 ^ (-51)
     + (8 * float_value m + 1) * 2 ^ (-1074).
Proof.
  intros Vd Vm Pd Pm Pr.
  destruct (quotient_class d Vd Pd) as [Va Pa].
  destruct (base_class d Vd Pd) as [Vb Pb].
  assert (V7 : valid_binary 53 1024 f7 = true) by reflexivity.
  assert (P7 : pz f7 = true) by reflexivity.
  pose proof (div_error d 7036874417766400 (-46) Pd Pa) as Ea.
  fold f100 in Ea.
  pose proof (mul_error _ f7 Va V7 Pa P7 Pb) as Eb.
  pose proof (mul_error _ m Vb Vm Pb Pm Pr) as Er.
  pose proof (value_nonneg d Pd) as Hd0.
  pose proof (value_nonneg m Pm) as Hm0.
  assert (HX : 0 <= float_value d / 100).
  { unfold Qdiv. apply Qmult_le_0_compat; [exact Hd0 | discriminate]. }
  set (a := float_value (SFdiv 53 1024 d f100)) in *.
  set (b := float_value (SFmul 53 1024 (SFdiv 53 1024 d f100) f7)) in *.
  set (r := float_value (SFmul 53 1024 (SFmul 53 1024 (SFdiv 53 1024 d f100) f7) m)) in *.
  apply (error_wd _ _ (float_value d / 100)) in Ea;
    [| rewrite value_f100; reflexivity].
  apply (error_wd _ _ (a * 7)) in Eb; [| rewrite value_f7; reflexivity].
  set (X := float_value d / 100) in *. set (M := float_value m) in *.
  clearbody a b r X M. 
  pose proof (three_roundings X M a b r (2 ^ (-53)) (2 ^ (-1075)) HX Hm0
                ltac:(reflexivity) ltac:(discriminate) ltac:(discriminate)
                Ea Eb Er) as H.
  assert (E1 : 4 * 2 ^ (-53) == 2 ^ (-51)) by reflexivity.
  assert (E2 : (16 * M + 2) * 2 ^ (-1075) == (8 * M + 1) * 2 ^ (-1074)).
  { assert (E : 2 ^ (-1075) == (1 # 2) * 2 ^ (-1074)) by reflexivity.
    rewrite E. ring. }
  rewrite E1, E2 in H. exact H.
Qed.

End ErrorFacts.

(** ** Consumption Estimator: the formula *)

Section Accuracy.
Import QArith Qabs Rat.
Local Open Scope Q_scope.

(** C2 (amended). For every non-negative distance [d] and every
    non-negative, in particular every positive, multiplier [m], binary64
    values both, [calculate_fuel_efficiency d m] is [(d / 100) * 7.0 * m]
    computed from left to right with each of the three operations rounded
    to the nearest binary64 value. When this result is finite it lies
    within [X * 2^-51 + (8 m + 1) * 2^-1074] of the exact rational
    [X = (d / 100) * 7 * m]: a relative error of at most [2^-51], apart
    from the term that only counts next to the smallest binary64 numbers.
    It need not be equal to [X]. *)
Theorem calculate_fuel_efficiency_accuracy (d m : Float.float) :
  Float.valid d = true -> Float.valid m = true ->
  Float.leb Float.zero d = true -> Float.leb Float.zero m = true ->
  Float.is_finite (calculate_fuel_efficiency d m) = true ->
  Qabs (float_value (calculate_fuel_efficiency d m)
        - float_value d / 100 * 7 * float_value m)
  <= float_value d / 100 * 7 * float_value m * 2 ^ (-51)
     + (8 * float_value m + 1) * 2 ^ (-1074).
Proof.
  intros Vd Vm Zd Zm Fr.
  rewrite calculate_fuel_efficiency_eq in *.
  destruct (EstimatorFacts.mul_finite_inv _ _ Fr) as [Fb Fm].
  destruct (EstimatorFacts.mul_finite_inv _ _ Fb) as [Fa _].
  unfold f100 in Fa. apply EstimatorFacts.div_finite_inv in Fa.
  pose proof (EstimatorFacts.pz_of_finite d Fa Zd) as Pd.
  pose proof (EstimatorFacts.pz_of_finite m Fm Zm) as Pm.
  destruct (RoundFacts.base_class d Vd Pd) as [Vb Pb].
  destruct (RoundFacts.mul_class _ m Vb Vm Pb Pm) as [_ Nr].
  apply ErrorFacts.estimate_error; trivial.
  apply EstimatorFacts.pz_of_finite; [exact Fr |].
  now apply EstimatorFacts.nonneg_facts.
Qed.

(** C2 (witness). The first entry of the mock data, [d = 10] and
    [m = 1.2]. *)
Lemma calculate_fuel_efficiency_accuracy_witness :
  Qabs (float_value (calculate_fuel_efficiency (Float.of_Z 10) (Float.lit 12 1))
        - float_value (Float.of_Z 10) / 100 * 7 * float_value (Float.lit 12 1))
  <= float_value (Float.of_Z 10) / 100 * 7 * float_value (Float.lit 12 1)
       * 2 ^ (-51)
     + (8 * float_value (Float.lit 12 1) + 1) * 2 ^ (-1074).
Proof.
  apply (calculate_fuel_efficiency_accuracy (Float.of_Z 10) (Float.lit 12 1));
    vm_compute; reflexivity.
Defined.

(** C2 (counterexample). For the distance [10] and the multiplier [1.0] the
    exact product is [7/10]; the estimator returns [0.7000000000000001],
    which is neither the float [0.7] nor the rational [7/10]. *)
Lemma calculate_fuel_efficiency_not_exact :
  Float.leb Float.zero (Float.of_Z 10) = true /\
  Float.ltb Float.zero (Float.lit 10 1) = true /\
  calculate_fuel_efficiency (Float.of_Z 10) (Float.lit 10 1) = f0_7_up /\
  Float.eqb (calculate_fuel_efficiency (Float.of_Z 10) (Float.lit 10 1))
            (Float.lit 7 1) = false /\
  float_value (Float.of_Z 10) / 100 * 7 * float_value (Float.lit 10 1) == 7 # 10 /\
  ~ float_value (calculate_fuel_efficiency (Float.of_Z 10) (Float.lit 10 1))
    == float_value (Float.of_Z 10) / 100 * 7 * float_value (Float.lit 10 1).
Proof.
  repeat split; try (vm_compute; reflexivity).
  intros H. vm_compute in H. discriminate H.
Qed.

End Accuracy.
